(** * Pagination and purge handler (synapse/handlers/pagination.py)

    A shallow embedding of [PurgeStatus] and [PaginationHandler]: the
    retention sweep, the purge life cycle, whole-room purges and
    [get_messages].  Coroutines are written in a state-and-exception
    monad over a [World]; the collaborators the handler talks to (store,
    clock, auth, federation, ...) are a record of functions over an
    abstract external state.  The interleaving of background purges,
    timers and lock holders is a step relation on the same [World]. *)

From Stdlib Require Import Ascii.
From stdpp Require Import gmap strings list fin_maps pretty.

Local Open Scope Z_scope.

(** ** Exceptions and results *)

Inductive exn :=
| SynapseError (code : Z) (msg : string)
| TypeError (msg : string)
| KeyError (key : string)
| AttributeError (msg : string)
| CollaboratorError (what : string).

Inductive result (A : Type) :=
| Ok (a : A)
| Raise (e : exn).
Arguments Ok {A} a.
Arguments Raise {A} e.

Definition is_ok {A} (r : result A) : bool :=
  match r with Ok _ => true | Raise _ => false end.

(** ** A state monad with exceptions

    A raised exception keeps the state reached so far, as a Python
    exception leaves every mutation done before it in place. *)

Definition M (S A : Type) : Type := S → result A * S.

Definition ret {S A} (a : A) : M S A := λ s, (Ok a, s).
Definition raise {S A} (e : exn) : M S A := λ s, (Raise e, s).
Definition bind {S A B} (c : M S A) (k : A → M S B) : M S B :=
  λ s, match c s with
       | (Ok a, s') => k a s'
       | (Raise e, s') => (Raise e, s')
       end.
Definition gets {S A} (f : S → A) : M S A := λ s, (Ok (f s), s).
Definition modify {S} (f : S → S) : M S unit := λ s, (Ok tt, f s).

Notation "x <~ c ;; k" := (bind c (λ x, k))
  (at level 100, c at next level, right associativity,
   format "'[v' x  <~  c  ;;  '/' k ']'").
Notation "c ;;; k" := (bind c (λ _, k))
  (at level 100, right associativity,
   format "'[v' c  ;;;  '/' k ']'").

(** ** PurgeStatus *)

Inductive status_code := STATUS_ACTIVE | STATUS_COMPLETE | STATUS_FAILED.

Global Instance status_code_eq_dec : EqDecision status_code.
Proof. solve_decision. Defined.

Definition STATUS_TEXT (s : status_code) : string :=
  match s with
  | STATUS_ACTIVE => "active"
  | STATUS_COMPLETE => "complete"
  | STATUS_FAILED => "failed"
  end.

Record PurgeStatus := { status : status_code }.

(** [PurgeStatus.__init__] *)
Definition PurgeStatus_new : PurgeStatus := {| status := STATUS_ACTIVE |}.

Definition asdict (p : PurgeStatus) : list (string * string) :=
  [("status", STATUS_TEXT (status p))].

Definition terminal (s : status_code) : bool :=
  match s with STATUS_ACTIVE => false | _ => true end.

(** ** Data passed to and from the collaborators *)

Record RetentionPolicy := { max_lifetime : option Z }.

(** Modelled from the spec: the stream token type lives in synapse.types.
    The handler reads and replaces its room component only; the other
    components travel with it untouched. *)
Record StreamToken := { room_key : string; other_keys : list string }.

(** [token.copy_and_replace("room_key", v)] *)
Definition copy_and_replace_room_key (t : StreamToken) (v : string) : StreamToken :=
  {| room_key := v; other_keys := other_keys t |}.

(** Modelled from the spec: a parsed room token has an optional
    topological component and a stream component. *)
Record RoomStreamToken := { topological : option Z; stream : Z }.

Record PaginationConfig := {
  from_token : option StreamToken;
  to_token : option StreamToken;
  pc_direction : string;
  pc_limit : option Z;
}.

Definition set_from_token (c : PaginationConfig) (t : StreamToken) : PaginationConfig :=
  {| from_token := Some t; to_token := to_token c;
     pc_direction := pc_direction c; pc_limit := pc_limit c |}.

Record SourceConfig := {
  from_key : string;
  to_key : option string;
  direction : string;
  limit : option Z;
}.

Definition set_from_key (c : SourceConfig) (k : string) : SourceConfig :=
  {| from_key := k; to_key := to_key c; direction := direction c; limit := limit c |}.

Inductive Membership := JOIN | LEAVE | INVITE | BAN.

Global Instance Membership_eq_dec : EqDecision Membership.
Proof. solve_decision. Defined.

Record RoomEvent := { event_id : string; sender : string }.

(** The event filter object: [filter] and [lazy_load_members] are its
    methods. *)
Record Filter := {
  filter_events : list RoomEvent → list RoomEvent;
  lazy_load_members : bool;
}.

(** The dict returned by [get_messages]; [state] is the optional key. *)
Record Response := {
  chunk : list string;
  start : string;
  end_ : string;
  state : option (list string);
}.

(** ** The handler's own state *)

Record PaginationHandler := {
  _server_name : string;
  _purges_in_progress_by_room : gset string;
  _purges_by_id : gmap string PurgeStatus;
  _retention_default_max_lifetime : option Z;
}.

Definition with_in_progress (f : gset string → gset string) (h : PaginationHandler) :=
  {| _server_name := _server_name h;
     _purges_in_progress_by_room := f (_purges_in_progress_by_room h);
     _purges_by_id := _purges_by_id h;
     _retention_default_max_lifetime := _retention_default_max_lifetime h |}.

Definition with_by_id (f : gmap string PurgeStatus → gmap string PurgeStatus)
    (h : PaginationHandler) :=
  {| _server_name := _server_name h;
     _purges_in_progress_by_room := _purges_in_progress_by_room h;
     _purges_by_id := f (_purges_by_id h);
     _retention_default_max_lifetime := _retention_default_max_lifetime h |}.

(** [get_purge_status] *)
Definition get_purge_status (h : PaginationHandler) (purge_id : string) : option PurgeStatus :=
  _purges_by_id h !! purge_id.

(** ** Retention window *)

(** Lines 120-131 of [purge_history_for_rooms_in_range]. *)
Definition include_null (default_max_lifetime min_ms max_ms : option Z) : bool :=
  match default_max_lifetime with
  | Some d =>
      let include_null := true in
      let include_null :=
        match min_ms with
        | Some lo => if bool_decide (lo >= d) then false else include_null
        | None => include_null
        end in
      let include_null :=
        match max_ms with
        | Some hi => if bool_decide (hi < d) then false else include_null
        | None => include_null
        end in
      include_null
  | None => false
  end.

(** The same flag, following the wording of the specification. *)
Definition include_null_spec (default_max_lifetime min_ms max_ms : option Z) : Prop :=
  ∃ d, default_max_lifetime = Some d
       ∧ ¬ (∃ lo, min_ms = Some lo ∧ d <= lo)
       ∧ ¬ (∃ hi, max_ms = Some hi ∧ d > hi).

(** ** Collaborators

    Everything the handler reaches through [hs]: each call takes the
    external state [Ext] (database, clock, random source, remote servers)
    to an answer or an exception and a new external state; the clock and
    the random strings always answer.  The last four fields are pure
    methods of types declared outside this file. *)

Record Collaborators (Ext : Type) := {
  (* self.clock, synapse.util.stringutils *)
  time_msec : Ext → Z * Ext;
  random_string : Z → Ext → string * Ext;
  (* self.store *)
  get_rooms_for_retention_period_in_range :
    option Z → option Z → bool → M Ext (list (string * RetentionPolicy));
  find_first_stream_ordering_after_ts : Z → M Ext Z;
  get_room_event_after_stream_ordering : string → Z → M Ext (option (Z * Z * string));
  get_room_version : string → M Ext string;
  is_host_joined : string → string → M Ext bool;
  get_max_topological_token : string → Z → M Ext Z;
  get_topological_token_for_event : option string → M Ext string;
  paginate_room_events :
    string → string → option string → string → option Z → option Filter →
    M Ext (list RoomEvent * string);
  get_events : list string → M Ext (list RoomEvent);
  (* self.storage.purge_events *)
  storage_purge_history : string → string → bool → M Ext unit;
  storage_purge_room : string → M Ext unit;
  (* self.state_store; the state filter is (Member, sender) per sender *)
  get_state_ids_for_event : string → list string → M Ext (list string);
  (* self.auth, federation handler, synapse.visibility, event sources,
     event serializer *)
  check_in_room_or_world_readable : string → string → M Ext (Membership * option string);
  maybe_backfill : string → Z → M Ext unit;
  filter_events_for_client : string → list RoomEvent → bool → M Ext (list RoomEvent);
  get_current_token_for_pagination : M Ext StreamToken;
  serialize_events : list RoomEvent → Z → bool → M Ext (list string);
  (* RoomStreamToken.parse, str(RoomStreamToken), StreamToken.to_string,
     PaginationConfig.get_source_config *)
  RoomStreamToken_parse : string → result RoomStreamToken;
  RoomStreamToken_str : RoomStreamToken → string;
  StreamToken_to_string : StreamToken → string;
  get_source_config : PaginationConfig → string → SourceConfig;
}.

Arguments time_msec {Ext} c.
Arguments random_string {Ext} c.
Arguments get_rooms_for_retention_period_in_range {Ext} c.
Arguments find_first_stream_ordering_after_ts {Ext} c.
Arguments get_room_event_after_stream_ordering {Ext} c.
Arguments get_room_version {Ext} c.
Arguments is_host_joined {Ext} c.
Arguments get_max_topological_token {Ext} c.
Arguments get_topological_token_for_event {Ext} c.
Arguments paginate_room_events {Ext} c.
Arguments get_events {Ext} c.
Arguments storage_purge_history {Ext} c.
Arguments storage_purge_room {Ext} c.
Arguments get_state_ids_for_event {Ext} c.
Arguments check_in_room_or_world_readable {Ext} c.
Arguments maybe_backfill {Ext} c.
Arguments filter_events_for_client {Ext} c.
Arguments get_current_token_for_pagination {Ext} c.
Arguments serialize_events {Ext} c.
Arguments RoomStreamToken_parse {Ext} c.
Arguments RoomStreamToken_str {Ext} c.
Arguments StreamToken_to_string {Ext} c.
Arguments get_source_config {Ext} c.

(** ** The per-room read/write lock *)

Inductive LockMode := Read | Write.

Global Instance LockMode_eq_dec : EqDecision LockMode.
Proof. solve_decision. Defined.

(** Modelled from the spec: ReadWriteLock is defined in
    synapse.util.async_helpers.  Per room the lock keeps a count of active
    readers, a flag for the active writer and the number of writers
    queued; an absent entry is the unlocked state. *)
Record RoomLockState := {
  readers_count : nat;
  writer_held : bool;
  writers_queued : nat;
}.

Definition unlocked : RoomLockState :=
  {| readers_count := 0; writer_held := false; writers_queued := 0 |}.

Definition lock_of (L : gmap string RoomLockState) (room_id : string) : RoomLockState :=
  default unlocked (L !! room_id).

(** Modelled from the spec: ReadWriteLock's admission rule.  Readers
    share the lock; a writer waits for every current reader and for the
    current writer; once a writer is queued no new reader is admitted. *)
Definition can_grant (m : LockMode) (st : RoomLockState) : bool :=
  match m with
  | Read => negb (writer_held st) && bool_decide (writers_queued st = 0%nat)
  | Write => negb (writer_held st) && bool_decide (readers_count st = 0%nat)
  end.

(** Modelled from the spec: ReadWriteLock's bookkeeping when a request is
    queued, granted and released. *)
Definition requested (m : LockMode) (st : RoomLockState) : RoomLockState :=
  match m with
  | Read => st
  | Write => {| readers_count := readers_count st; writer_held := writer_held st;
                writers_queued := S (writers_queued st) |}
  end.

Definition granted (m : LockMode) (st : RoomLockState) : RoomLockState :=
  match m with
  | Read => {| readers_count := S (readers_count st); writer_held := writer_held st;
               writers_queued := writers_queued st |}
  | Write => {| readers_count := readers_count st; writer_held := true;
                writers_queued := Nat.pred (writers_queued st) |}
  end.

Definition released (m : LockMode) (st : RoomLockState) : RoomLockState :=
  match m with
  | Read => {| readers_count := Nat.pred (readers_count st); writer_held := writer_held st;
               writers_queued := writers_queued st |}
  | Write => {| readers_count := readers_count st; writer_held := false;
                writers_queued := writers_queued st |}
  end.

Definition lock_update (f : RoomLockState → RoomLockState) (room_id : string)
    (L : gmap string RoomLockState) : gmap string RoomLockState :=
  <[room_id := f (lock_of L room_id)]> L.

(** ** Coroutines, events and the world *)

Record GetMessagesArgs := {
  gm_user_id : string;
  gm_room_id : string;
  gm_pagin_config : PaginationConfig;
  gm_room_token : RoomStreamToken;
  gm_source_config : SourceConfig;
  gm_as_client_event : bool;
  gm_event_filter : option Filter;
}.

(** The three coroutines that take the pagination lock, with their
    arguments. *)
Inductive Coroutine :=
| PurgeHistoryCo (purge_id room_id token : string) (delete_local_events : bool)
| PurgeRoomCo (room_id : string)
| GetMessagesCo (args : GetMessagesArgs).

(** [pagination_lock.write(room_id)] in [_purge_history] and [purge_room],
    [pagination_lock.read(room_id)] in [get_messages]. *)
Definition lock_mode (co : Coroutine) : LockMode :=
  match co with
  | PurgeHistoryCo _ _ _ _ => Write
  | PurgeRoomCo _ => Write
  | GetMessagesCo _ => Read
  end.

Definition lock_room (co : Coroutine) : string :=
  match co with
  | PurgeHistoryCo _ room_id _ _ => room_id
  | PurgeRoomCo room_id => room_id
  | GetMessagesCo a => gm_room_id a
  end.

Inductive Phase := AwaitingLock | HoldingLock | Finished.

Global Instance Phase_eq_dec : EqDecision Phase.
Proof. solve_decision. Defined.

(** What the handler does that an observer can see, in order. *)
Inductive Event :=
| EvStatusCreated (purge_id : string)
| EvStatusSet (purge_id : string) (s : status_code)
| EvCallLater (due : Z) (purge_id : string)
| EvStatusDeleted (purge_id : string)
| EvBackground (purge_id room_id token : string) (delete_local_events : bool)
| EvAcquire (m : LockMode) (room_id : string)
| EvRelease (m : LockMode) (room_id : string)
| EvStorePurgeHistory (room_id token : string) (delete_local_events : bool)
| EvStorePurgeRoom (room_id : string)
| EvPaginate (room_id from_key : string) (to_key : option string) (direction : string)
| EvBackfill (room_id : string) (max_topo : Z).

(** The purge a status event is about. *)
Definition status_event_of (e : Event) : option string :=
  match e with
  | EvStatusCreated p | EvStatusSet p _ | EvCallLater _ p | EvStatusDeleted p => Some p
  | _ => None
  end.

Definition created_id (e : Z * Event) : option string :=
  match e.2 with EvStatusCreated p => Some p | _ => None end.

(** A pending [reactor.callLater(delay, clear_purge)]: due time, the purge
    id captured by the closure, and whether it has been called. *)
Record DelayedCall := { dc_due : Z; dc_purge_id : string; dc_called : bool }.

Section Model.
Context {Ext : Type}.

Record World := {
  handler : PaginationHandler;
  ext : Ext;
  pagination_lock : gmap string RoomLockState;
  reactor_seconds : Z;
  delayed_calls : list DelayedCall;
  tasks : list (Coroutine * Phase);
  log : list (Z * Event);
}.

Definition with_handler (f : PaginationHandler → PaginationHandler) (w : World) : World :=
  {| handler := f (handler w); ext := ext w; pagination_lock := pagination_lock w;
     reactor_seconds := reactor_seconds w; delayed_calls := delayed_calls w;
     tasks := tasks w; log := log w |}.

Definition with_ext (e : Ext) (w : World) : World :=
  {| handler := handler w; ext := e; pagination_lock := pagination_lock w;
     reactor_seconds := reactor_seconds w; delayed_calls := delayed_calls w;
     tasks := tasks w; log := log w |}.

Definition with_lock (f : gmap string RoomLockState → gmap string RoomLockState)
    (w : World) : World :=
  {| handler := handler w; ext := ext w; pagination_lock := f (pagination_lock w);
     reactor_seconds := reactor_seconds w; delayed_calls := delayed_calls w;
     tasks := tasks w; log := log w |}.

Definition with_seconds (t : Z) (w : World) : World :=
  {| handler := handler w; ext := ext w; pagination_lock := pagination_lock w;
     reactor_seconds := t; delayed_calls := delayed_calls w;
     tasks := tasks w; log := log w |}.

Definition with_delayed_calls (f : list DelayedCall → list DelayedCall) (w : World) : World :=
  {| handler := handler w; ext := ext w; pagination_lock := pagination_lock w;
     reactor_seconds := reactor_seconds w; delayed_calls := f (delayed_calls w);
     tasks := tasks w; log := log w |}.

Definition with_tasks (f : list (Coroutine * Phase) → list (Coroutine * Phase))
    (w : World) : World :=
  {| handler := handler w; ext := ext w; pagination_lock := pagination_lock w;
     reactor_seconds := reactor_seconds w; delayed_calls := delayed_calls w;
     tasks := f (tasks w); log := log w |}.

Definition with_log (f : list (Z * Event) → list (Z * Event)) (w : World) : World :=
  {| handler := handler w; ext := ext w; pagination_lock := pagination_lock w;
     reactor_seconds := reactor_seconds w; delayed_calls := delayed_calls w;
     tasks := tasks w; log := f (log w) |}.

(** A collaborator call made from inside the handler. *)
Definition call {A} (c : M Ext A) : M World A :=
  λ w, let '(r, e) := c (ext w) in (r, with_ext e w).

(** A call that cannot fail: reading the clock, drawing a random string. *)
Definition call_total {A} (c : Ext → A * Ext) : M World A :=
  λ w, let '(a, e) := c (ext w) in (Ok a, with_ext e w).

Definition lift {A} (r : result A) : M World A := λ w, (r, w).

Definition emit (e : Event) : M World unit :=
  modify (λ w, with_log (λ l, l ++ [(reactor_seconds w, e)]) w).

(** [try: c except Exception: h] and [try: c finally: f] *)
Definition try_except {A} (c : M World A) (h : exn → M World A) : M World A :=
  λ w, match c w with
       | (Ok a, w') => (Ok a, w')
       | (Raise e, w') => h e w'
       end.

Definition try_finally {A} (c : M World A) (f : M World unit) : M World A :=
  λ w, let '(r, w') := c w in
       match f w' with
       | (Ok _, w'') => (r, w'')
       | (Raise e, w'') => (Raise e, w'')
       end.

(** Leaving a [with (yield self.pagination_lock.read/write(room_id))]
    block. *)
Definition release (m : LockMode) (room_id : string) : M World unit :=
  modify (with_lock (lock_update (released m) room_id)) ;;;
  emit (EvRelease m room_id).

End Model.
Arguments World Ext : clear implicits.

(** ** The handler's methods *)

Section Handler.
Context {Ext : Type} (C : Collaborators Ext).
Local Abbreviation W := (World Ext).

(** [self._purges_by_id[purge_id] = PurgeStatus()] *)
Definition create_purge_status (purge_id : string) : M W unit :=
  emit (EvStatusCreated purge_id) ;;;
  modify (with_handler (with_by_id (<[purge_id := PurgeStatus_new]>))).

(** [self._purges_by_id[purge_id].status = s]; the lookup raises KeyError
    when the id is not in the table. *)
Definition set_purge_status (purge_id : string) (s : status_code) : M W unit :=
  h <~ gets handler ;;
  match _purges_by_id h !! purge_id with
  | Some _ =>
      emit (EvStatusSet purge_id s) ;;;
      modify (with_handler (with_by_id (<[purge_id := {| status := s |}]>)))
  | None => raise (KeyError purge_id)
  end.

(** The closure [clear_purge]: [del self._purges_by_id[purge_id]]. *)
Definition clear_purge (purge_id : string) : M W unit :=
  h <~ gets handler ;;
  match _purges_by_id h !! purge_id with
  | Some _ =>
      emit (EvStatusDeleted purge_id) ;;;
      modify (with_handler (with_by_id (delete purge_id)))
  | None => raise (KeyError purge_id)
  end.

(** [self.hs.get_reactor().callLater(delay, clear_purge)] *)
Definition callLater (delay : Z) (purge_id : string) : M W unit :=
  now <~ gets reactor_seconds ;;
  emit (EvCallLater (now + delay) purge_id) ;;;
  modify (with_delayed_calls
            (λ l, l ++ [{| dc_due := now + delay; dc_purge_id := purge_id;
                           dc_called := false |}])).

(** [_purge_history] up to its first suspension: line 233, then the
    request for the room's write lock. *)
Definition _purge_history_start (purge_id room_id token : string)
    (delete_local_events : bool) : M W unit :=
  modify (with_handler (with_in_progress (λ s, s ∪ {[room_id]}))) ;;;
  modify (with_lock (lock_update (requested Write) room_id)) ;;;
  modify (with_tasks
            (λ l, l ++ [(PurgeHistoryCo purge_id room_id token delete_local_events,
                         AwaitingLock)])).

(** [_purge_history] from the moment the write lock is granted: lines
    236-254. *)
Definition _purge_history_locked (purge_id room_id token : string)
    (delete_local_events : bool) : M W unit :=
  try_finally
    (try_except
       (try_finally
          (emit (EvStorePurgeHistory room_id token delete_local_events) ;;;
           call (storage_purge_history C room_id token delete_local_events))
          (release Write room_id) ;;;
        set_purge_status purge_id STATUS_COMPLETE)
       (λ _, set_purge_status purge_id STATUS_FAILED))
    (modify (with_handler (with_in_progress (λ s, s ∖ {[room_id]}))) ;;;
     callLater (24 * 3600) purge_id).

(** [run_in_background(self._purge_history, ...)]: the coroutine runs at
    once, up to its first suspension. *)
Definition run_in_background (purge_id room_id token : string)
    (delete_local_events : bool) : M W unit :=
  emit (EvBackground purge_id room_id token delete_local_events) ;;;
  _purge_history_start purge_id room_id token delete_local_events.

(** [run_as_background_process("_purge_history", self._purge_history, ...)] *)
Definition run_as_background_process (purge_id room_id token : string)
    (delete_local_events : bool) : M W unit :=
  run_in_background purge_id room_id token delete_local_events.

(** The body of the loop of [purge_history_for_rooms_in_range], lines
    138-187, for one entry of [rooms]. *)
Definition retention_room (room_id : string) (retention_policy : RetentionPolicy)
    : M W unit :=
  h <~ gets handler ;;
  if decide (room_id ∈ _purges_in_progress_by_room h) then ret tt
  else
    let max_lifetime :=
      match max_lifetime retention_policy with
      | Some m => Some m
      | None => _retention_default_max_lifetime h
      end in
    now <~ call_total (time_msec C) ;;
    match max_lifetime with
    | None => raise (TypeError "unsupported operand type(s) for -: 'int' and 'NoneType'")
    | Some max_lifetime =>
        let ts := now - max_lifetime in
        stream_ordering <~ call (find_first_stream_ordering_after_ts C ts) ;;
        r <~ call (get_room_event_after_stream_ordering C room_id stream_ordering) ;;
        match r with
        | None => ret tt
        | Some (stream, topo, _event_id) =>
            let token := "t" +:+ pretty topo +:+ "-" +:+ pretty stream in
            purge_id <~ call_total (random_string C 16) ;;
            create_purge_status purge_id ;;;
            run_as_background_process purge_id room_id token true
        end
    end.

Fixpoint retention_loop (rooms : list (string * RetentionPolicy)) : M W unit :=
  match rooms with
  | [] => ret tt
  | (room_id, retention_policy) :: rest =>
      retention_room room_id retention_policy ;;;
      retention_loop rest
  end.

Definition purge_history_for_rooms_in_range (min_ms max_ms : option Z) : M W unit :=
  h <~ gets handler ;;
  let include_null := include_null (_retention_default_max_lifetime h) min_ms max_ms in
  rooms <~ call (get_rooms_for_retention_period_in_range C min_ms max_ms include_null) ;;
  retention_loop rooms.

(** [start_purge_history]; [delete_local_events = None] is a call that
    leaves the keyword argument out. *)
Definition start_purge_history (room_id token : string)
    (delete_local_events : option bool) : M W string :=
  let delete_local_events := default false delete_local_events in
  h <~ gets handler ;;
  if decide (room_id ∈ _purges_in_progress_by_room h) then
    raise (SynapseError 400 ("History purge already in progress for " +:+ room_id))
  else
    purge_id <~ call_total (random_string C 16) ;;
    create_purge_status purge_id ;;;
    run_in_background purge_id room_id token delete_local_events ;;;
    ret purge_id.

(** [purge_room] from the moment the write lock is granted: lines
    270-281, then the release that ends the [with] block. *)
Definition purge_room_locked (room_id : string) : M W unit :=
  try_finally
    (_ <~ call (get_room_version C room_id) ;;
     h <~ gets handler ;;
     joined <~ call (is_host_joined C room_id (_server_name h)) ;;
     if (joined : bool) then raise (SynapseError 400 "Users are still joined to this room")
     else
       emit (EvStorePurgeRoom room_id) ;;;
       call (storage_purge_room C room_id))
    (release Write room_id).

(** [get_messages] before it asks for the read lock: lines 305-319.  The
    caller's [pagin_config] object is mutated in place, so its final
    value is returned whatever the outcome. *)
Definition resolve_from_token (pagin_config : PaginationConfig) (w : W)
    : result StreamToken * PaginationConfig * W :=
  match from_token pagin_config with
  | Some t => (Ok t, pagin_config, w)
  | None =>
      match call (get_current_token_for_pagination C) w with
      | (Ok t, w') => (Ok t, set_from_token pagin_config t, w')
      | (Raise e, w') => (Raise e, pagin_config, w')
      end
  end.

Definition get_messages_prelude (pagin_config : PaginationConfig) (w : W)
    : result (RoomStreamToken * SourceConfig) * PaginationConfig * W :=
  let '(r, pagin_config, w) := resolve_from_token pagin_config w in
  match r with
  | Raise e => (Raise e, pagin_config, w)
  | Ok t =>
      match RoomStreamToken_parse C (room_key t) with
      | Raise e => (Raise e, pagin_config, w)
      | Ok room_token =>
          let pagin_config :=
            set_from_token pagin_config
              (copy_and_replace_room_key t (RoomStreamToken_str C room_token)) in
          (Ok (room_token, get_source_config C pagin_config "room"), pagin_config, w)
      end
  end.

(** Lines 330-335: the topological position to backfill from. *)
Definition resolve_max_topo (room_id : string) (room_token : RoomStreamToken) : M W Z :=
  match topological room_token with
  | Some t =>
      if decide (t = 0) then call (get_max_topological_token C room_id (stream room_token))
      else ret t
  | None => call (get_max_topological_token C room_id (stream room_token))
  end.

(** Lines 337-346: the clamp for a requester who has left. *)
Definition clamp_to_leave (membership : Membership) (member_event_id : option string)
    (max_topo : Z) (source_config : SourceConfig) : M W SourceConfig :=
  if decide (membership = LEAVE) then
    leave_token <~ call (get_topological_token_for_event C member_event_id) ;;
    leave_token <~ lift (RoomStreamToken_parse C leave_token) ;;
    match topological leave_token with
    | None => raise (TypeError "'<' not supported between instances of 'NoneType' and 'int'")
    | Some leave_topo =>
        if bool_decide (leave_topo < max_topo) then
          ret (set_from_key source_config (RoomStreamToken_str C leave_token))
        else ret source_config
    end
  else ret source_config.

(** Lines 322-361, inside the read lock.  Returns the page, the next
    token and the member event id. *)
Definition read_page (a : GetMessagesArgs)
    : M W (list RoomEvent * StreamToken * option string) :=
  let room_id := gm_room_id a in
  mm <~ call (check_in_room_or_world_readable C room_id (gm_user_id a)) ;;
  let '(membership, member_event_id) := (mm : Membership * option string) in
  source_config <~
    (if decide (direction (gm_source_config a) = "b") then
       max_topo <~ resolve_max_topo room_id (gm_room_token a) ;;
       source_config <~
         clamp_to_leave membership member_event_id max_topo (gm_source_config a) ;;
       emit (EvBackfill room_id max_topo) ;;;
       call (maybe_backfill C room_id max_topo) ;;;
       ret source_config
     else ret (gm_source_config a)) ;;
  emit (EvPaginate room_id (from_key source_config) (to_key source_config)
          (direction source_config)) ;;;
  page <~ call (paginate_room_events C room_id (from_key source_config)
                  (to_key source_config) (direction source_config)
                  (limit source_config) (gm_event_filter a)) ;;
  let '(events, next_key) := (page : list RoomEvent * string) in
  match from_token (gm_pagin_config a) with
  | None => raise (AttributeError "'NoneType' object has no attribute 'copy_and_replace'")
  | Some t => ret (events, copy_and_replace_room_key t next_key, member_event_id)
  end.

(** Lines 363-369: the event filter, then the visibility filter. *)
Definition visible_events (a : GetMessagesArgs) (events : list RoomEvent)
    (member_event_id : option string) : M W (list RoomEvent) :=
  match events with
  | [] => ret events
  | _ :: _ =>
      let events :=
        match gm_event_filter a with
        | Some f => filter_events f events
        | None => events
        end in
      call (filter_events_for_client C (gm_user_id a) events
              (bool_decide (member_event_id = None)))
  end.

(** Lines 378-393: lazily loaded member state. *)
Definition lazy_member_state (a : GetMessagesArgs) (events : list RoomEvent)
    : M W (option (list RoomEvent)) :=
  match gm_event_filter a, events with
  | Some f, first :: _ =>
      if lazy_load_members f then
        state_ids <~ call (get_state_ids_for_event C (event_id first)
                             (sender <$> events)) ;;
        match state_ids with
        | [] => ret None
        | _ :: _ => st <~ call (get_events C state_ids) ;; ret (Some st)
        end
      else ret None
  | _, _ => ret None
  end.

(** [pagin_config.from_token.to_string()] *)
Definition from_token_string (a : GetMessagesArgs) : M W string :=
  match from_token (gm_pagin_config a) with
  | None => raise (AttributeError "'NoneType' object has no attribute 'to_string'")
  | Some t => ret (StreamToken_to_string C t)
  end.

(** Lines 363-412, after the read lock is released. *)
Definition build_response (a : GetMessagesArgs) (events : list RoomEvent)
    (next_token : StreamToken) (member_event_id : option string) : M W Response :=
  events <~ visible_events a events member_event_id ;;
  match events with
  | [] =>
      start_ <~ from_token_string a ;;
      ret {| chunk := []; start := start_;
             end_ := StreamToken_to_string C next_token; state := None |}
  | _ :: _ =>
      st <~ lazy_member_state a events ;;
      time_now <~ call_total (time_msec C) ;;
      serialized <~ call (serialize_events C events time_now (gm_as_client_event a)) ;;
      start_ <~ from_token_string a ;;
      match st with
      | Some (s0 :: srest) =>
          serialized_state <~ call (serialize_events C (s0 :: srest) time_now
                                      (gm_as_client_event a)) ;;
          ret {| chunk := serialized; start := start_;
                 end_ := StreamToken_to_string C next_token;
                 state := Some serialized_state |}
      | _ =>
          ret {| chunk := serialized; start := start_;
                 end_ := StreamToken_to_string C next_token; state := None |}
      end
  end.

(** [get_messages] from the moment the read lock is granted. *)
Definition get_messages_locked (a : GetMessagesArgs) : M W Response :=
  page <~ try_finally (read_page a) (release Read (gm_room_id a)) ;;
  let '(events, next_token, member_event_id) :=
    (page : list RoomEvent * StreamToken * option string) in
  build_response a events next_token member_event_id.

End Handler.

(** ** Whole calls and the scheduler *)

Section Scheduler.
Context {Ext : Type} (C : Collaborators Ext).
Local Abbreviation W := (World Ext).

(** [PaginationHandler.__init__]: empty tables, a fresh lock. *)
Definition PaginationHandler_init (hostname : string)
    (retention_default_max_lifetime : option Z) : PaginationHandler :=
  {| _server_name := hostname;
     _purges_in_progress_by_room := ∅;
     _purges_by_id := ∅;
     _retention_default_max_lifetime := retention_default_max_lifetime |}.

Definition init_world (h : PaginationHandler) (e : Ext) (t0 : Z) : W :=
  {| handler := h; ext := e; pagination_lock := ∅; reactor_seconds := t0;
     delayed_calls := []; tasks := []; log := [] |}.

(** Entering a [with] block on the lock when it is granted at once. *)
Definition acquire (m : LockMode) (room_id : string) : M W unit :=
  modify (with_lock (lock_update (λ st, granted m (requested m st)) room_id)) ;;;
  emit (EvAcquire m room_id).

(** [purge_room], run without suspension at the lock. *)
Definition purge_room (room_id : string) : M W unit :=
  acquire Write room_id ;;;
  purge_room_locked C room_id.

(** [get_messages], run without suspension at the lock; the caller's
    [pagin_config] as the call leaves it comes back with the result. *)
Definition get_messages (user_id room_id : string) (pagin_config : PaginationConfig)
    (as_client_event : bool) (event_filter : option Filter) (w : W)
    : result Response * PaginationConfig * W :=
  match get_messages_prelude C pagin_config w with
  | (Raise e, pagin_config, w) => (Raise e, pagin_config, w)
  | (Ok (room_token, source_config), pagin_config, w) =>
      let a := {| gm_user_id := user_id; gm_room_id := room_id;
                  gm_pagin_config := pagin_config; gm_room_token := room_token;
                  gm_source_config := source_config;
                  gm_as_client_event := as_client_event;
                  gm_event_filter := event_filter |} in
      let '(r, w) := (acquire Read room_id ;;; get_messages_locked C a) w in
      (r, pagin_config, w)
  end.

(** What a coroutine does once its lock is granted. *)
Definition run_locked (co : Coroutine) : M W unit :=
  match co with
  | PurgeHistoryCo purge_id room_id token delete_local_events =>
      _purge_history_locked C purge_id room_id token delete_local_events
  | PurgeRoomCo room_id => purge_room_locked C room_id
  | GetMessagesCo a => get_messages_locked C a ;;; ret tt
  end.

Definition mark_called (dc : DelayedCall) : DelayedCall :=
  {| dc_due := dc_due dc; dc_purge_id := dc_purge_id dc; dc_called := true |}.

(** One scheduling step of the reactor: a request arrives, a waiting
    coroutine gets its lock, a coroutine holding its lock runs to its end,
    a delayed call fires, time passes, or the outside world changes. *)
Inductive step : W → W → Prop :=
| step_start_purge_history room_id token delete_local_events w r w' :
    start_purge_history C room_id token delete_local_events w = (r, w') →
    step w w'
| step_retention_room room_id retention_policy w r w' :
    retention_room C room_id retention_policy w = (r, w') →
    step w w'
| step_purge_room room_id w :
    step w (with_tasks (λ l, l ++ [(PurgeRoomCo room_id, AwaitingLock)])
              (with_lock (lock_update (requested Write) room_id) w))
| step_get_messages user_id room_id pagin_config as_client_event event_filter
    w room_token source_config pagin_config' w' :
    get_messages_prelude C pagin_config w
      = (Ok (room_token, source_config), pagin_config', w') →
    step w (with_tasks
              (λ l, l ++ [(GetMessagesCo
                             {| gm_user_id := user_id; gm_room_id := room_id;
                                gm_pagin_config := pagin_config';
                                gm_room_token := room_token;
                                gm_source_config := source_config;
                                gm_as_client_event := as_client_event;
                                gm_event_filter := event_filter |},
                           AwaitingLock)]) w')
| step_grant i co w :
    tasks w !! i = Some (co, AwaitingLock) →
    can_grant (lock_mode co) (lock_of (pagination_lock w) (lock_room co)) = true →
    step w (with_tasks (<[i := (co, HoldingLock)]>)
              (with_log (λ l, l ++ [(reactor_seconds w,
                                     EvAcquire (lock_mode co) (lock_room co))])
                 (with_lock (lock_update (granted (lock_mode co)) (lock_room co)) w)))
| step_run i co w r w' :
    tasks w !! i = Some (co, HoldingLock) →
    run_locked co w = (r, w') →
    step w (with_tasks (<[i := (co, Finished)]>) w')
| step_delayed_call j dc w r w' :
    delayed_calls w !! j = Some dc →
    dc_called dc = false →
    dc_due dc <= reactor_seconds w →
    clear_purge (dc_purge_id dc) w = (r, w') →
    step w (with_delayed_calls (<[j := mark_called dc]>) w')
| step_advance dt w :
    0 <= dt →
    step w (with_seconds (reactor_seconds w + dt) w)
| step_ext e w :
    step w (with_ext e w).

Inductive reachable (w0 : W) : W → Prop :=
| reachable_refl : reachable w0 w0
| reachable_step w w' : reachable w0 w → step w w' → reachable w0 w'.

(** A computation that leaves the handler's tables, the lock, the
    reactor and the task list alone and logs only events satisfying [P]. *)
Definition quiet {A} (P : Z * Event → Prop) (c : M W A) : Prop :=
  ∀ w r w', c w = (r, w') →
    handler w' = handler w
    ∧ pagination_lock w' = pagination_lock w
    ∧ reactor_seconds w' = reactor_seconds w
    ∧ delayed_calls w' = delayed_calls w
    ∧ tasks w' = tasks w
    ∧ ∃ new, log w' = log w ++ new ∧ Forall P new.

(** What [get_messages] may log while it holds the read lock: a backfill
    when going backwards, and the storage read, whose from key is the
    source config's own or, going backwards, a serialised leave token. *)
Definition read_event (a : GetMessagesArgs) (e : Z * Event) : Prop :=
  let sc := gm_source_config a in
  match e.2 with
  | EvBackfill room_id _ => room_id = gm_room_id a ∧ direction sc = "b"
  | EvPaginate room_id fk tk d =>
      room_id = gm_room_id a ∧ tk = to_key sc ∧ d = direction sc
      ∧ (fk = from_key sc
         ∨ (direction sc = "b" ∧ ∃ leave_token, fk = RoomStreamToken_str C leave_token))
  | _ => False
  end.

(** Events that are not about a status record. *)
Definition no_status (e : Z * Event) : Prop := status_event_of e.2 = None.

(** ** Reading the log *)

(** The status events about one purge, oldest first. *)
Definition about (purge_id : string) (e : Z * Event) : bool :=
  bool_decide (status_event_of e.2 = Some purge_id).

Definition history (purge_id : string) (l : list (Z * Event)) : list (Z * Event) :=
  List.filter (about purge_id) l.

Definition created_ids (l : list (Z * Event)) : list string :=
  omap created_id l.

(** The life of a status record, as its events and the table entry that
    goes with them. *)
Inductive lifecycle (p : string) : list (Z * Event) → option PurgeStatus → Prop :=
| lifecycle_unknown :
    lifecycle p [] None
| lifecycle_active t0 :
    lifecycle p [(t0, EvStatusCreated p)] (Some {| status := STATUS_ACTIVE |})
| lifecycle_terminal t0 t1 s :
    terminal s = true →
    lifecycle p [(t0, EvStatusCreated p); (t1, EvStatusSet p s);
                 (t1, EvCallLater (t1 + 24 * 3600) p)]
              (Some {| status := s |})
| lifecycle_removed t0 t1 t2 s :
    terminal s = true →
    t1 + 24 * 3600 <= t2 →
    lifecycle p [(t0, EvStatusCreated p); (t1, EvStatusSet p s);
                 (t1, EvCallLater (t1 + 24 * 3600) p); (t2, EvStatusDeleted p)]
              None.

Definition is_deletion (e : Z * Event) : bool :=
  match e.2 with
  | EvStorePurgeRoom _ | EvStorePurgeHistory _ _ _ => true
  | _ => false
  end.

Definition deletions (l : list (Z * Event)) : list (Z * Event) :=
  List.filter is_deletion l.

Definition count {A} (f : A → bool) (l : list A) : nat :=
  length (List.filter f l).

(** An unfinished [_purge_history] coroutine for purge [p]. *)
Definition purging (p : string) (t : Coroutine * Phase) : bool :=
  match t.1 with
  | PurgeHistoryCo p' _ _ _ => bool_decide (p' = p) && negb (bool_decide (t.2 = Finished))
  | _ => false
  end.

(** A [clear_purge] for [p] that the reactor has still to call. *)
Definition pending (p : string) (dc : DelayedCall) : bool :=
  bool_decide (dc_purge_id dc = p) && negb (dc_called dc).

Definition pending_dues (p : string) (l : list DelayedCall) : list Z :=
  dc_due <$> List.filter (pending p) l.

(** Where purge [p] stands: its events so far, its table entry, its
    running coroutine and its pending cleanup. *)
Inductive stage (p : string) (w : W) : Prop :=
| stage_unknown :
    history p (log w) = [] →
    get_purge_status (handler w) p = None →
    count (purging p) (tasks w) = 0%nat →
    pending_dues p (delayed_calls w) = [] →
    stage p w
| stage_active t0 :
    history p (log w) = [(t0, EvStatusCreated p)] →
    get_purge_status (handler w) p = Some {| status := STATUS_ACTIVE |} →
    count (purging p) (tasks w) = 1%nat →
    pending_dues p (delayed_calls w) = [] →
    stage p w
| stage_terminal t0 t1 s :
    terminal s = true →
    history p (log w) = [(t0, EvStatusCreated p); (t1, EvStatusSet p s);
                         (t1, EvCallLater (t1 + 24 * 3600) p)] →
    get_purge_status (handler w) p = Some {| status := s |} →
    count (purging p) (tasks w) = 0%nat →
    pending_dues p (delayed_calls w) = [t1 + 24 * 3600] →
    stage p w
| stage_removed t0 t1 t2 s :
    terminal s = true →
    t1 + 24 * 3600 <= t2 →
    history p (log w) = [(t0, EvStatusCreated p); (t1, EvStatusSet p s);
                         (t1, EvCallLater (t1 + 24 * 3600) p);
                         (t2, EvStatusDeleted p)] →
    get_purge_status (handler w) p = None →
    count (purging p) (tasks w) = 0%nat →
    pending_dues p (delayed_calls w) = [] →
    stage p w.

(** What one scheduling step can do to the purges: nothing, create a
    status record and its coroutine, finish a coroutine, or run a
    cleanup. *)
Inductive effect (w w' : W) : Prop :=
| effect_none :
    (∀ p, history p (log w') = history p (log w)) →
    created_ids (log w') = created_ids (log w) →
    (∀ p, get_purge_status (handler w') p = get_purge_status (handler w) p) →
    (∀ p, count (purging p) (tasks w') = count (purging p) (tasks w)) →
    (∀ p, pending_dues p (delayed_calls w') = pending_dues p (delayed_calls w)) →
    effect w w'
| effect_create q :
    (∀ p, history p (log w')
          = history p (log w)
            ++ if decide (p = q) then [(reactor_seconds w, EvStatusCreated q)] else []) →
    created_ids (log w') = created_ids (log w) ++ [q] →
    (∀ p, get_purge_status (handler w') p
          = if decide (p = q) then Some {| status := STATUS_ACTIVE |}
            else get_purge_status (handler w) p) →
    (∀ p, count (purging p) (tasks w')
          = (count (purging p) (tasks w) + if decide (p = q) then 1 else 0)%nat) →
    (∀ p, pending_dues p (delayed_calls w') = pending_dues p (delayed_calls w)) →
    effect w w'
| effect_finish q s :
    terminal s = true →
    (0 < count (purging q) (tasks w))%nat →
    (∀ p, history p (log w')
          = history p (log w)
            ++ if decide (p = q)
               then (if get_purge_status (handler w) q is Some _
                     then [(reactor_seconds w, EvStatusSet q s)] else [])
                    ++ [(reactor_seconds w,
                         EvCallLater (reactor_seconds w + 24 * 3600) q)]
               else []) →
    created_ids (log w') = created_ids (log w) →
    (∀ p, get_purge_status (handler w') p
          = if decide (p = q)
            then (if get_purge_status (handler w) q is Some _
                  then Some {| status := s |} else None)
            else get_purge_status (handler w) p) →
    (∀ p, (count (purging p) (tasks w') + if decide (p = q) then 1 else 0)%nat
          = count (purging p) (tasks w)) →
    (∀ p, pending_dues p (delayed_calls w')
          = pending_dues p (delayed_calls w)
            ++ if decide (p = q) then [reactor_seconds w + 24 * 3600] else []) →
    effect w w'
| effect_clear q due :
    due ∈ pending_dues q (delayed_calls w) →
    due <= reactor_seconds w →
    (∀ p, history p (log w')
          = history p (log w)
            ++ if decide (p = q)
               then (if get_purge_status (handler w) q is Some _
                     then [(reactor_seconds w, EvStatusDeleted q)] else [])
               else []) →
    created_ids (log w') = created_ids (log w) →
    (∀ p, get_purge_status (handler w') p
          = if decide (p = q) then None else get_purge_status (handler w) p) →
    (∀ p, count (purging p) (tasks w') = count (purging p) (tasks w)) →
    (∀ p, (length (pending_dues p (delayed_calls w'))
           + if decide (p = q) then 1 else 0)%nat
          = length (pending_dues p (delayed_calls w))) →
    (∀ p, p ≠ q →
          pending_dues p (delayed_calls w') = pending_dues p (delayed_calls w)) →
    effect w w'.

(** The launches recorded in a log. *)
Definition launch_of (e : Z * Event) : option (string * string * string * bool) :=
  match e.2 with
  | EvBackground purge_id room_id token delete_local_events =>
      Some (purge_id, room_id, token, delete_local_events)
  | _ => None
  end.

Definition launches (l : list (Z * Event)) : list (string * string * string * bool) :=
  omap launch_of l.

(** Coroutines holding, or waiting for, the lock of a room in a mode. *)
Definition in_phase (ph : Phase) (m : LockMode) (room_id : string)
    (t : Coroutine * Phase) : bool :=
  bool_decide (t.2 = ph) && bool_decide (lock_mode t.1 = m)
  && bool_decide (lock_room t.1 = room_id).

(** The lock table agrees with the coroutines: per room, the readers
    counted are the [get_messages] calls holding the lock, the writer flag
    is the one purge holding it, the queue is the purges waiting, and a
    held write lock has no reader beside it. *)
Definition lock_inv (w : W) : Prop :=
  ∀ room_id,
    let st := lock_of (pagination_lock w) room_id in
    readers_count st = count (in_phase HoldingLock Read room_id) (tasks w)
    ∧ (if writer_held st then 1%nat else 0%nat)
      = count (in_phase HoldingLock Write room_id) (tasks w)
    ∧ writers_queued st = count (in_phase AwaitingLock Write room_id) (tasks w)
    ∧ (writer_held st = true → readers_count st = 0%nat).

(** What one scheduling step can do to the lock: nothing, queue a
    request, grant one, or release one. *)
Inductive lock_effect (w w' : W) : Prop :=
| lock_effect_none :
    (∀ r, lock_of (pagination_lock w') r = lock_of (pagination_lock w) r) →
    tasks w' = tasks w →
    lock_effect w w'
| lock_effect_request co :
    (∀ r, lock_of (pagination_lock w') r
          = if decide (r = lock_room co)
            then requested (lock_mode co) (lock_of (pagination_lock w) r)
            else lock_of (pagination_lock w) r) →
    tasks w' = tasks w ++ [(co, AwaitingLock)] →
    lock_effect w w'
| lock_effect_grant i co :
    tasks w !! i = Some (co, AwaitingLock) →
    can_grant (lock_mode co) (lock_of (pagination_lock w) (lock_room co)) = true →
    (∀ r, lock_of (pagination_lock w') r
          = if decide (r = lock_room co)
            then granted (lock_mode co) (lock_of (pagination_lock w) r)
            else lock_of (pagination_lock w) r) →
    tasks w' = <[i := (co, HoldingLock)]> (tasks w) →
    lock_effect w w'
| lock_effect_release i co :
    tasks w !! i = Some (co, HoldingLock) →
    (∀ r, lock_of (pagination_lock w') r
          = if decide (r = lock_room co)
            then released (lock_mode co) (lock_of (pagination_lock w) r)
            else lock_of (pagination_lock w) r) →
    tasks w' = <[i := (co, Finished)]> (tasks w) →
    lock_effect w w'.

End Scheduler.

(** ** An in-memory stand-in for the collaborators

    One room's event rows, a clock and a counter behind the random
    strings; used to run the handler on concrete inputs. *)

Module Demo.

Record Row := {
  r_stream : Z;
  r_topological : Z;
  r_ts : Z;
  r_event : RoomEvent;
}.

Record State := {
  now_ms : Z;
  drawn : nat;
  rows : list Row;
  known_room : bool;
  host_joined : bool;
  purge_succeeds : bool;
  member : Membership * option string;
  retention_rooms : list (string * RetentionPolicy);
  current_token : StreamToken;
  (* order of the pair in the answer of
     get_room_event_after_stream_ordering: (stream, topological, id) when
     true, (topological, stream, id) when false *)
  stream_first : bool;
}.

Definition draw (e : State) : State :=
  {| now_ms := now_ms e; drawn := S (drawn e); rows := rows e;
     known_room := known_room e; host_joined := host_joined e;
     purge_succeeds := purge_succeeds e; member := member e;
     retention_rooms := retention_rooms e; current_token := current_token e;
     stream_first := stream_first e |}.

Definition answer {A} (a : A) : M State A := λ e, (Ok a, e).

Definition digit_of (c : ascii) : option Z :=
  let n := Z.of_N (N_of_ascii c) in
  if bool_decide (48 <= n <= 57) then Some (n - 48) else None.

Fixpoint parse_digits (s : string) (acc : Z) : option Z :=
  match s with
  | EmptyString => Some acc
  | String c s' =>
      match digit_of c with
      | Some d => parse_digits s' (10 * acc + d)
      | None => None
      end
  end.

Definition parse_number (s : string) : option Z :=
  match s with
  | EmptyString => None
  | String _ _ => parse_digits s 0
  end.

(** Splits at the first dash. *)
Fixpoint split_dash (s : string) : option (string * string) :=
  match s with
  | EmptyString => None
  | String c s' =>
      if bool_decide (c = "-"%char) then Some (EmptyString, s')
      else match split_dash s' with
           | Some (a, b) => Some (String c a, b)
           | None => None
           end
  end.

Definition parse (s : string) : result RoomStreamToken :=
  let invalid := Raise (SynapseError 400 ("Invalid token " +:+ s)) in
  match s with
  | String "s"%char rest =>
      match parse_number rest with
      | Some n => Ok {| topological := None; stream := n |}
      | None => invalid
      end
  | String "t"%char rest =>
      match split_dash rest with
      | Some (a, b) =>
          match parse_number a, parse_number b with
          | Some t, Some n => Ok {| topological := Some t; stream := n |}
          | _, _ => invalid
          end
      | None => invalid
      end
  | _ => invalid
  end.

Definition str (t : RoomStreamToken) : string :=
  match topological t with
  | Some topo => "t" +:+ pretty topo +:+ "-" +:+ pretty (stream t)
  | None => "s" +:+ pretty (stream t)
  end.

(** A row lies before a token: by (topological, stream) for a
    topological token, by stream alone for a stream token. *)
Definition before (t : RoomStreamToken) (r : Row) : bool :=
  match topological t with
  | Some topo =>
      bool_decide (r_topological r < topo)
      || (bool_decide (r_topological r = topo) && bool_decide (r_stream r <= stream t))
  | None => bool_decide (r_stream r <= stream t)
  end.

Definition max_topo_before (so : Z) (rs : list Row) : Z :=
  foldr (λ r acc, if bool_decide (r_stream r < so) then Z.max (r_topological r) acc else acc)
    0 rs.

Definition collaborators : Collaborators State := {|
  time_msec := λ e, (now_ms e, e);
  random_string := λ _ e, ("purge" +:+ pretty (drawn e), draw e);
  get_rooms_for_retention_period_in_range := λ _ _ _ e, (Ok (retention_rooms e), e);
  find_first_stream_ordering_after_ts := λ ts e,
    (Ok (default 0 (head (r_stream <$> List.filter (λ r, bool_decide (ts < r_ts r)) (rows e)))), e);
  get_room_event_after_stream_ordering := λ _ so e,
    (Ok ((λ r, if stream_first e
               then (r_stream r, r_topological r, event_id (r_event r))
               else (r_topological r, r_stream r, event_id (r_event r)))
           <$> head (List.filter (λ r, bool_decide (so <= r_stream r)) (rows e))), e);
  get_room_version := λ _ e,
    (if known_room e then Ok "5" else Raise (CollaboratorError "Unknown room"), e);
  is_host_joined := λ _ _ e, (Ok (host_joined e), e);
  get_max_topological_token := λ _ so e, (Ok (max_topo_before so (rows e)), e);
  get_topological_token_for_event := λ ev e,
    (match List.filter (λ r, bool_decide (Some (event_id (r_event r)) = ev)) (rows e) with
     | r :: _ => Ok ("t" +:+ pretty (r_topological r) +:+ "-" +:+ pretty (r_stream r))
     | [] => Raise (CollaboratorError "event not found")
     end, e);
  paginate_room_events := λ _ from_key _ _ _ _ e,
    (match parse from_key with
     | Ok t => Ok (r_event <$> rev (List.filter (before t) (rows e)), from_key)
     | Raise x => Raise x
     end, e);
  get_events := λ _, answer [];
  storage_purge_history := λ _ _ _ e,
    (if purge_succeeds e then Ok tt else Raise (CollaboratorError "database error"), e);
  storage_purge_room := λ _ e,
    (if purge_succeeds e then Ok tt else Raise (CollaboratorError "database error"), e);
  get_state_ids_for_event := λ _ _, answer [];
  check_in_room_or_world_readable := λ _ _ e, (Ok (member e), e);
  maybe_backfill := λ _ _, answer tt;
  filter_events_for_client := λ _ events _, answer events;
  get_current_token_for_pagination := λ e, (Ok (current_token e), e);
  serialize_events := λ events _ _, answer (event_id <$> events);
  RoomStreamToken_parse := parse;
  RoomStreamToken_str := str;
  StreamToken_to_string := λ t, foldl (λ acc k, acc +:+ "_" +:+ k) (room_key t) (other_keys t);
  get_source_config := λ c _,
    {| from_key := default "" (room_key <$> from_token c);
       to_key := room_key <$> to_token c;
       direction := pc_direction c;
       limit := pc_limit c |};
|}.

Definition quiet_state : State :=
  {| now_ms := 1000000; drawn := 0; rows := []; known_room := true;
     host_joined := false; purge_succeeds := true; member := (JOIN, Some "$join");
     retention_rooms := [];
     current_token := {| room_key := "s0"; other_keys := ["0"; "0"] |};
     stream_first := true |}.

Definition with_rows (rs : list Row) (e : State) : State :=
  {| now_ms := now_ms e; drawn := drawn e; rows := rs;
     known_room := known_room e; host_joined := host_joined e;
     purge_succeeds := purge_succeeds e; member := member e;
     retention_rooms := retention_rooms e; current_token := current_token e;
     stream_first := stream_first e |}.

Definition with_member (m : Membership * option string) (e : State) : State :=
  {| now_ms := now_ms e; drawn := drawn e; rows := rows e;
     known_room := known_room e; host_joined := host_joined e;
     purge_succeeds := purge_succeeds e; member := m;
     retention_rooms := retention_rooms e; current_token := current_token e;
     stream_first := stream_first e |}.

Definition with_stream_first (b : bool) (e : State) : State :=
  {| now_ms := now_ms e; drawn := drawn e; rows := rows e;
     known_room := known_room e; host_joined := host_joined e;
     purge_succeeds := purge_succeeds e; member := member e;
     retention_rooms := retention_rooms e; current_token := current_token e;
     stream_first := b |}.

Definition with_room (known joined : bool) (e : State) : State :=
  {| now_ms := now_ms e; drawn := drawn e; rows := rows e;
     known_room := known; host_joined := joined;
     purge_succeeds := purge_succeeds e; member := member e;
     retention_rooms := retention_rooms e; current_token := current_token e;
     stream_first := stream_first e |}.

Definition row (so topo ts : Z) (id sender_ : string) : Row :=
  {| r_stream := so; r_topological := topo; r_ts := ts;
     r_event := {| event_id := id; sender := sender_ |} |}.

Definition world (e : State) : World State :=
  init_world (PaginationHandler_init "example.org" (Some 259200000)) e 0.

(** A room with one recent event at stream position 7 and topological
    position 5, and a policy keeping events for one second. *)
Definition sweep_state (stream_first_ : bool) : State :=
  with_stream_first stream_first_
    (with_rows [row 7 5 999500 "$ev" "@alice:example.org"] quiet_state).

Definition one_second : RetentionPolicy := {| max_lifetime := Some 1000 |}.

(** A requester who left at topological position 5, stream position 50;
    another event sits at the same topological position, stream position
    60. *)
Definition left_state : State :=
  with_member (LEAVE, Some "$leave")
    (with_rows [row 50 5 1000 "$leave" "@bob:example.org";
                row 60 5 2000 "$later" "@alice:example.org"] quiet_state).

(** A backwards request starting at the given room key. *)
Definition backwards_from (key : string) : PaginationConfig :=
  {| from_token := Some {| room_key := key; other_keys := ["1"; "2"] |};
     to_token := None; pc_direction := "b"; pc_limit := Some 10 |}.


Definition args (topo stream_ : Z) : GetMessagesArgs :=
  let key := str {| topological := Some topo; stream := stream_ |} in
  {| gm_user_id := "@bob:example.org"; gm_room_id := "!room";
     gm_pagin_config := backwards_from key;
     gm_room_token := {| topological := Some topo; stream := stream_ |};
     gm_source_config := get_source_config collaborators (backwards_from key) "room";
     gm_as_client_event := true; gm_event_filter := None |}.

(** The (topological, stream) position of an event of the room. *)
Definition position (e : State) (id : string) : option (Z * Z) :=
  (λ r, (r_topological r, r_stream r))
    <$> head (List.filter (λ r, bool_decide (event_id (r_event r) = id)) (rows e)).

(** The event [id] lies after the event [leave_id] in the room's order. *)
Definition past_departure (e : State) (leave_id id : string) : bool :=
  match position e leave_id, position e id with
  | Some (lt, ls), Some (t, s_) =>
      bool_decide (lt < t) || (bool_decide (lt = t) && bool_decide (ls < s_))
  | _, _ => false
  end.

(** One purge from request to cleanup: started, granted the write lock,
    run, and cleared a day later. *)
Definition purge_co : Coroutine := PurgeHistoryCo "purge0" "!room" "t5-7" false.

Definition purge_started : World State :=
  (start_purge_history collaborators "!room" "t5-7" None (world quiet_state)).2.

Definition purge_granted : World State :=
  with_tasks (<[0%nat := (purge_co, HoldingLock)]>)
    (with_log (λ l, l ++ [(reactor_seconds purge_started, EvAcquire Write "!room")])
       (with_lock (lock_update (granted Write) "!room") purge_started)).

Definition purge_finished : World State :=
  with_tasks (<[0%nat := (purge_co, Finished)]>)
    (run_locked collaborators purge_co purge_granted).2.

Definition a_day_later : World State :=
  with_seconds (reactor_seconds purge_finished + 86400) purge_finished.

Definition purge_cleared : World State :=
  with_delayed_calls
    (<[0%nat := mark_called {| dc_due := 86400; dc_purge_id := "purge0";
                               dc_called := false |}]>)
    (clear_purge "purge0" a_day_later).2.

(** Two [get_messages] calls on the same room, both granted the read
    lock. *)
Definition reader : Coroutine := GetMessagesCo (args 9 100).

Definition one_waiting : World State :=
  with_tasks (λ l, l ++ [(reader, AwaitingLock)]) (world left_state).

Definition two_waiting : World State :=
  with_tasks (λ l, l ++ [(reader, AwaitingLock)]) one_waiting.

Definition grant (i : nat) (co : Coroutine) (w : World State) : World State :=
  with_tasks (<[i := (co, HoldingLock)]>)
    (with_log (λ l, l ++ [(reactor_seconds w, EvAcquire (lock_mode co) (lock_room co))])
       (with_lock (lock_update (granted (lock_mode co)) (lock_room co)) w)).

Definition two_reading : World State :=
  grant 1 reader (grant 0 reader two_waiting).

(** The same collaborators with an authorisation check that refuses
    everybody. *)
Definition refusing : Collaborators State := {|
  time_msec := time_msec collaborators;
  random_string := random_string collaborators;
  get_rooms_for_retention_period_in_range :=
    get_rooms_for_retention_period_in_range collaborators;
  find_first_stream_ordering_after_ts := find_first_stream_ordering_after_ts collaborators;
  get_room_event_after_stream_ordering :=
    get_room_event_after_stream_ordering collaborators;
  get_room_version := get_room_version collaborators;
  is_host_joined := is_host_joined collaborators;
  get_max_topological_token := get_max_topological_token collaborators;
  get_topological_token_for_event := get_topological_token_for_event collaborators;
  paginate_room_events := paginate_room_events collaborators;
  get_events := get_events collaborators;
  storage_purge_history := storage_purge_history collaborators;
  storage_purge_room := storage_purge_room collaborators;
  get_state_ids_for_event := get_state_ids_for_event collaborators;
  check_in_room_or_world_readable := λ _ _ e,
    (Raise (SynapseError 403 "Guest access not allowed"), e);
  maybe_backfill := maybe_backfill collaborators;
  filter_events_for_client := filter_events_for_client collaborators;
  get_current_token_for_pagination := get_current_token_for_pagination collaborators;
  serialize_events := serialize_events collaborators;
  RoomStreamToken_parse := parse;
  RoomStreamToken_str := str;
  StreamToken_to_string := StreamToken_to_string collaborators;
  get_source_config := get_source_config collaborators;
|}.

(** A forwards request by the requester who left. *)
Definition forwards_from (key : string) : PaginationConfig :=
  {| from_token := Some {| room_key := key; other_keys := ["1"; "2"] |};
     to_token := None; pc_direction := "f"; pc_limit := Some 10 |}.

Definition forward_args : GetMessagesArgs :=
  {| gm_user_id := "@bob:example.org"; gm_room_id := "!room";
     gm_pagin_config := forwards_from "t9-100";
     gm_room_token := {| topological := Some 9; stream := 100 |};
     gm_source_config := get_source_config collaborators (forwards_from "t9-100") "room";
     gm_as_client_event := true; gm_event_filter := None |}.

(** A server without a default retention policy, and a room without a
    policy of its own. *)
Definition no_default (e : State) : World State :=
  init_world (PaginationHandler_init "example.org" None) e 0.

Definition no_policy : RetentionPolicy := {| max_lifetime := None |}.

(** The state after a sweep iteration that launched a purge. *)
Definition swept : World State :=
  (retention_room collaborators "!room" one_second (world (sweep_state true))).2.

(** A storage layer whose deletions fail. *)
Definition failing_storage : State :=
  {| now_ms := 1000000; drawn := 1; rows := []; known_room := true;
     host_joined := false; purge_succeeds := false; member := (JOIN, Some "$join");
     retention_rooms := [];
     current_token := {| room_key := "s0"; other_keys := ["0"; "0"] |};
     stream_first := true |}.

End Demo.

(** ** Names used in the statements *)

(** A storage deletion in the log is accounted for by a finished
    coroutine: a whole-room deletion by a [purge_room] of that room, a
    history deletion by a [_purge_history] with the same room, token and
    flag. *)
Definition deletion_accounted (ts : list (Coroutine * Phase)) (e : Z * Event) : Prop :=
  match e.2 with
  | EvStorePurgeRoom room_id => ∃ i, ts !! i = Some (PurgeRoomCo room_id, Finished)
  | EvStorePurgeHistory room_id token d =>
      ∃ i purge_id, ts !! i = Some (PurgeHistoryCo purge_id room_id token d, Finished)
  | _ => True
  end.

(** Every [_purge_history] coroutine was started by a launch in the log. *)
Definition tasks_launched (ts : list (Coroutine * Phase)) (l : list (Z * Event)) : Prop :=
  ∀ i purge_id room_id token d ph,
    ts !! i = Some (PurgeHistoryCo purge_id room_id token d, ph) →
    (purge_id, room_id, token, d) ∈ launches l.

(** The lifetime a retention sweep applies to a room: the room's own, or
    the server default when the room has none. *)
Definition effective_max_lifetime (h : PaginationHandler) (p : RetentionPolicy)
    : option Z :=
  match max_lifetime p with
  | Some m => Some m
  | None => _retention_default_max_lifetime h
  end.

(** The purge token with the answer of
    [get_room_event_after_stream_ordering] read in the order
    (topological, stream, event id). *)
Definition token_topological_first (r : Z * Z * string) : string :=
  "t" +:+ pretty r.1.1 +:+ "-" +:+ pretty r.1.2.

(** The same with the answer read in the order (stream, topological,
    event id). *)
Definition token_stream_first (r : Z * Z * string) : string :=
  "t" +:+ pretty r.1.2 +:+ "-" +:+ pretty r.1.1.

(** A string without the separator of the purge token. *)
Fixpoint dashless (s : string) : bool :=
  match s with
  | EmptyString => true
  | String c s' => negb (bool_decide (c = "-"%char)) && dashless s'
  end.

Definition accounted {Ext : Type} (w : World Ext) : Prop :=
  tasks_launched (tasks w) (log w) ∧ Forall (deletion_accounted (tasks w)) (log w).

(** * Properties *)

(** ** The retention window *)

Example include_null_inside :
  include_null (Some 1000) (Some 500) (Some 2000) = true.
Proof. reflexivity. Qed.

Example include_null_at_lower_bound :
  include_null (Some 1000) (Some 1000) (Some 2000) = false.
Proof. reflexivity. Qed.

Example include_null_above_upper_bound :
  include_null (Some 1000) (Some 0) (Some 500) = false.
Proof. reflexivity. Qed.

Example include_null_at_upper_bound :
  include_null (Some 1000) None (Some 1000) = true.
Proof. reflexivity. Qed.

(** C2: the include-null flag computed by
    [purge_history_for_rooms_in_range] is true exactly when a default
    lifetime D is configured, not (min is set and D <= min) and not (max is
    set and D > max); with no default configured it is false. *)
Theorem include_null_correct (default_max_lifetime min_ms max_ms : option Z) :
  (include_null default_max_lifetime min_ms max_ms = true
   ↔ include_null_spec default_max_lifetime min_ms max_ms)
  ∧ include_null None min_ms max_ms = false.
Proof.
  split; [|reflexivity].
  unfold include_null, include_null_spec.
  destruct default_max_lifetime as [d|]; [|split; [done|intros (d & ? & _); done]].
  split.
  - intros H. exists d. split; [done|].
    split.
    + intros (lo & -> & Hle).
      rewrite bool_decide_eq_true_2 in H by lia.
      destruct max_ms; [case_bool_decide|]; done.
    + intros (hi & -> & Hgt).
      rewrite (bool_decide_eq_true_2 (hi < d)) in H by lia. done.
  - intros (d' & [= <-] & Hmin & Hmax).
    destruct min_ms as [lo|], max_ms as [hi|]; repeat case_bool_decide; try done;
      exfalso; first [apply Hmin; eexists; split; [done|lia]
                     |apply Hmax; eexists; split; [done|lia]].
Qed.

(** ** Running the monad *)

Ltac mrun :=
  repeat (progress (unfold bind, ret, raise, gets, modify, call, call_total, emit,
                      lift, try_except, try_finally in *;
                    cbn [fst snd handler ext pagination_lock reactor_seconds
                         delayed_calls tasks log with_handler with_ext with_lock
                         with_seconds with_delayed_calls with_tasks with_log] in *)).

Ltac wsimpl :=
  cbn [fst snd handler ext pagination_lock reactor_seconds delayed_calls tasks log
       with_handler with_ext with_lock with_seconds with_delayed_calls with_tasks
       with_log] in *.

Section StartPurge.
Context {Ext : Type} (C : Collaborators Ext).
Local Abbreviation W := (World Ext).

Lemma launches_app (l1 l2 : list (Z * Event)) :
  launches (l1 ++ l2) = launches l1 ++ launches l2.
Proof. unfold launches. apply omap_app. Qed.

(** C4: [start_purge_history] raises the conflict error exactly when the
    room is in the in-progress set, and then the world is left as it was;
    otherwise it returns the id just drawn, having put an Active status
    record under it and started the purge in the background. *)
Theorem start_purge_history_conflict (room_id token : string)
    (delete_local_events : option bool) (w : W) :
  match start_purge_history C room_id token delete_local_events w with
  | (Raise e, w') =>
      room_id ∈ _purges_in_progress_by_room (handler w)
      ∧ e = SynapseError 400 ("History purge already in progress for " +:+ room_id)
      ∧ w' = w
  | (Ok purge_id, w') =>
      (room_id ∉ _purges_in_progress_by_room (handler w))
      ∧ purge_id = (random_string C 16 (ext w)).1
      ∧ _purges_by_id (handler w')
        = <[purge_id := {| status := STATUS_ACTIVE |}]> (_purges_by_id (handler w))
      ∧ get_purge_status (handler w') purge_id = Some {| status := STATUS_ACTIVE |}
      ∧ launches (log w')
        = launches (log w)
          ++ [(purge_id, room_id, token, default false delete_local_events)]
  end.
Proof.
  unfold start_purge_history. mrun.
  destruct (decide (room_id ∈ _)) as [Hin|Hout]; mrun; [done|].
  unfold create_purge_status, run_in_background, _purge_history_start. mrun.
  destruct (random_string C 16 (ext w)) as [purge_id e] eqn:Hdraw. mrun.
  repeat split; try done.
  - unfold get_purge_status. cbn. apply lookup_insert_eq.
  - rewrite !launches_app. cbn. by rewrite app_nil_r.
Qed.

End StartPurge.

(** ** The retention sweep *)

Section Retention.
Context {Ext : Type} (C : Collaborators Ext).
Local Abbreviation W := (World Ext).

(** C1, amended: for a room the sweep processes (not already being
    purged, with an event at or after the resolved stream position) the
    purge is launched with the cutoff now minus the effective max
    lifetime, and with the token "t{topological}-{stream}" where the
    store's answer is read in the order (stream, topological, event id). *)
Theorem retention_room_launch (w : W) (room_id : string) (policy : RetentionPolicy)
    (lifetime now stream_ordering : Z) (r : Z * Z * string) (purge_id : string)
    (e1 e2 e3 e4 : Ext) :
  room_id ∉ _purges_in_progress_by_room (handler w) →
  effective_max_lifetime (handler w) policy = Some lifetime →
  time_msec C (ext w) = (now, e1) →
  find_first_stream_ordering_after_ts C (now - lifetime) e1 = (Ok stream_ordering, e2) →
  get_room_event_after_stream_ordering C room_id stream_ordering e2 = (Ok (Some r), e3) →
  random_string C 16 e3 = (purge_id, e4) →
  ∃ w', retention_room C room_id policy w = (Ok tt, w')
        ∧ launches (log w')
          = launches (log w) ++ [(purge_id, room_id, token_stream_first r, true)]
        ∧ tasks w'
          = tasks w ++ [(PurgeHistoryCo purge_id room_id (token_stream_first r) true,
                         AwaitingLock)]
        ∧ get_purge_status (handler w') purge_id = Some {| status := STATUS_ACTIVE |}.
Proof.
  intros Hfree Hlife Hnow Hfirst Hafter Hdraw.
  unfold retention_room, effective_max_lifetime in *. mrun.
  destruct (decide (room_id ∈ _)) as [|_]; [done|].
  rewrite Hlife. mrun. rewrite Hnow. mrun. rewrite Hfirst. mrun.
  rewrite Hafter. mrun. destruct r as [[stream_ topo] ev].
  unfold create_purge_status, run_as_background_process, run_in_background,
    _purge_history_start. mrun.
  rewrite Hdraw. mrun.
  eexists. split; [reflexivity|]. cbn.
  split; [|split; [done|]].
  - rewrite !launches_app. cbn. by rewrite app_nil_r.
  - unfold get_purge_status. cbn. apply lookup_insert_eq.
Qed.

Lemma retention_room_launches (room_id : string) (policy : RetentionPolicy) (w : W) :
  ∃ new, launches (log (retention_room C room_id policy w).2) = launches (log w) ++ new
         ∧ Forall (λ l, l.2 = true) new.
Proof.
  unfold retention_room. mrun.
  destruct (decide (room_id ∈ _)) as [|_]; mrun.
  { exists []. by rewrite app_nil_r. }
  destruct (time_msec C (ext w)) as [now e1]. mrun.
  destruct (match max_lifetime policy with Some m => Some m | None => _ end) as [lifetime|];
    mrun; [|exists []; by rewrite app_nil_r].
  destruct (find_first_stream_ordering_after_ts C _ e1) as [[so|x] e2]; mrun;
    [|exists []; by rewrite app_nil_r].
  destruct (get_room_event_after_stream_ordering C room_id so e2) as [[[r|]|x] e3]; mrun;
    [|exists []; by rewrite app_nil_r..].
  destruct r as [[stream_ topo] ev].
  unfold create_purge_status, run_as_background_process, run_in_background,
    _purge_history_start. mrun.
  destruct (random_string C 16 e3) as [purge_id e4]. mrun.
  eexists [_]. split.
  - rewrite !launches_app. cbn. by rewrite app_nil_r.
  - by constructor.
Qed.

Lemma retention_loop_launches (rooms : list (string * RetentionPolicy)) (w : W) :
  ∃ new, launches (log (retention_loop C rooms w).2) = launches (log w) ++ new
         ∧ Forall (λ l, l.2 = true) new.
Proof.
  revert w. induction rooms as [|[room_id policy] rest IH]; intros w; cbn.
  { exists []. by rewrite app_nil_r. }
  unfold bind.
  destruct (retention_room_launches room_id policy w) as (new1 & Hlog1 & Hall1).
  destruct (retention_room C room_id policy w) as [[[]|x] w1]; cbn in *.
  - destruct (IH w1) as (new2 & Hlog2 & Hall2).
    exists (new1 ++ new2). rewrite Hlog2, Hlog1, <-(assoc_L (++)).
    split; [done|]. by apply Forall_app.
  - by exists new1.
Qed.

(** C9: every purge a retention sweep launches is started with
    [delete_local_events = True]; a purge started by
    [start_purge_history] is started with the caller's value, and with
    False when the caller leaves the argument out. *)
Theorem delete_local_events_flag :
  (∀ (min_ms max_ms : option Z) (w : W),
     ∃ new, launches (log (purge_history_for_rooms_in_range C min_ms max_ms w).2)
            = launches (log w) ++ new
            ∧ Forall (λ l, l.2 = true) new)
  ∧ (∀ (room_id token : string) (delete_local_events : option bool) (w : W),
       ∃ new, launches (log (start_purge_history C room_id token delete_local_events w).2)
              = launches (log w) ++ new
              ∧ Forall (λ l, l.2 = match delete_local_events with
                                   | Some b => b
                                   | None => false
                                   end) new).
Proof.
  split.
  - intros min_ms max_ms w. unfold purge_history_for_rooms_in_range. mrun.
    destruct (get_rooms_for_retention_period_in_range C _ _ _ _) as [[rooms|x] e]; mrun.
    + apply (retention_loop_launches rooms (with_ext e w)).
    + exists []. by rewrite app_nil_r.
  - intros room_id token delete_local_events w.
    unfold start_purge_history. mrun.
    destruct (decide (room_id ∈ _)) as [|_]; mrun.
    { exists []. by rewrite app_nil_r. }
    unfold create_purge_status, run_in_background, _purge_history_start. mrun.
    destruct (random_string C 16 (ext w)) as [purge_id e]. mrun.
    eexists [_]. split.
    + rewrite !launches_app. cbn. by rewrite app_nil_r.
    + constructor; [|done]. by destruct delete_local_events.
Qed.

End Retention.

(** The sweep on the stand-in store, which answers (stream, topological,
    event id) = (7, 5, "$ev"). *)
Lemma retention_room_launch_witness :
  ∃ w', retention_room Demo.collaborators "!room" Demo.one_second
          (Demo.world (Demo.sweep_state true)) = (Ok tt, w')
        ∧ launches (log w') = [("purge0", "!room", "t5-7", true)].
Proof.
  destruct (retention_room_launch Demo.collaborators
              (Demo.world (Demo.sweep_state true)) "!room" Demo.one_second
              1000 1000000 7 (7, 5, "$ev") "purge0"
              (Demo.sweep_state true) (Demo.sweep_state true) (Demo.sweep_state true)
              (Demo.draw (Demo.sweep_state true)))
    as (w' & Hrun & Hlaunch & _); try reflexivity.
  - cbn. apply not_elem_of_empty.
  - exists w'. split; [exact Hrun|exact Hlaunch].
Defined.

(** C1 as stated fails: when the store answers in the order
    (topological, stream, event id) = (5, 7, "$ev"), the token launched
    is "t7-5", not "t5-7". *)
Lemma retention_token_counterexample :
  ¬ (∀ (w : World Demo.State) (room_id : string) (policy : RetentionPolicy)
       (lifetime now stream_ordering : Z) (r : Z * Z * string) (purge_id : string)
       (e1 e2 e3 e4 : Demo.State),
       room_id ∉ _purges_in_progress_by_room (handler w) →
       effective_max_lifetime (handler w) policy = Some lifetime →
       time_msec Demo.collaborators (ext w) = (now, e1) →
       find_first_stream_ordering_after_ts Demo.collaborators (now - lifetime) e1
         = (Ok stream_ordering, e2) →
       get_room_event_after_stream_ordering Demo.collaborators room_id stream_ordering e2
         = (Ok (Some r), e3) →
       random_string Demo.collaborators 16 e3 = (purge_id, e4) →
       ∃ w', retention_room Demo.collaborators room_id policy w = (Ok tt, w')
             ∧ launches (log w')
               = launches (log w)
                 ++ [(purge_id, room_id, token_topological_first r, true)]).
Proof.
  intros H.
  destruct (H (Demo.world (Demo.sweep_state false)) "!room" Demo.one_second
              1000 1000000 7 (5, 7, "$ev") "purge0"
              (Demo.sweep_state false) (Demo.sweep_state false)
              (Demo.sweep_state false) (Demo.draw (Demo.sweep_state false)))
    as (w' & Hrun & Hlaunch); try reflexivity.
  - cbn. apply not_elem_of_empty.
  - apply (f_equal snd) in Hrun. cbn [snd] in Hrun. subst w'.
    vm_compute in Hlaunch. discriminate Hlaunch.
Qed.

(** ** Purging a whole room *)

Section PurgeRoom.
Context {Ext : Type} (C : Collaborators Ext).
Local Abbreviation W := (World Ext).

Lemma deletions_app (l1 l2 : list (Z * Event)) :
  deletions (l1 ++ l2) = deletions l1 ++ deletions l2.
Proof. apply List.filter_app. Qed.

(** C5: [purge_room] fails with the store's error when the room is not
    known, fails with "Users are still joined to this room" when the host
    is still joined, and in both cases calls no deletion; only for a known
    room with no local user joined does it call the storage primitive
    that deletes the room, and its outcome is then that primitive's. *)
Theorem purge_room_outcome (room_id : string) (w : W) :
  let '(known, e1) := get_room_version C room_id (ext w) in
  let '(joined, e2) := is_host_joined C room_id (_server_name (handler w)) e1 in
  let '(deleted, e3) := storage_purge_room C room_id e2 in
  let '(r, w') := purge_room C room_id w in
  match known, joined with
  | Raise x, _ =>
      r = Raise x ∧ deletions (log w') = deletions (log w) ∧ ext w' = e1
  | Ok _, Raise x =>
      r = Raise x ∧ deletions (log w') = deletions (log w) ∧ ext w' = e2
  | Ok _, Ok true =>
      r = Raise (SynapseError 400 "Users are still joined to this room")
      ∧ deletions (log w') = deletions (log w) ∧ ext w' = e2
  | Ok _, Ok false =>
      r = deleted
      ∧ deletions (log w')
        = deletions (log w) ++ [(reactor_seconds w, EvStorePurgeRoom room_id)]
      ∧ ext w' = e3
  end.
Proof.
  unfold purge_room, purge_room_locked, acquire, release. mrun.
  destruct (get_room_version C room_id (ext w)) as [[v|x] e1]; mrun.
  - destruct (is_host_joined C room_id _ e1) as [[[]|x] e2]; mrun.
    + destruct (storage_purge_room C room_id e2) as [deleted e3].
      rewrite !deletions_app. cbn. by rewrite !app_nil_r.
    + destruct (storage_purge_room C room_id e2) as [deleted e3]; mrun.
      destruct deleted as [[]|x]; mrun;
        rewrite !deletions_app; cbn; by rewrite !app_nil_r.
    + destruct (storage_purge_room C room_id e2) as [deleted e3].
      rewrite !deletions_app. cbn. by rewrite !app_nil_r.
  - destruct (is_host_joined C room_id _ e1) as [joined e2].
    destruct (storage_purge_room C room_id e2) as [deleted e3].
    rewrite !deletions_app. cbn. by rewrite !app_nil_r.
Qed.

End PurgeRoom.

(** ** Computations that only talk to the collaborators *)

Section Quiet.
Context {Ext : Type}.
Local Abbreviation W := (World Ext).
Implicit Types P : Z * Event → Prop.

Lemma quiet_ret {A} P (a : A) : quiet (Ext:=Ext) P (ret a).
Proof.
  intros w r w' [= <- <-]. repeat split; try done.
  exists []. by rewrite app_nil_r.
Qed.

Lemma quiet_raise {A} P (e : exn) : quiet (Ext:=Ext) (A:=A) P (raise e).
Proof.
  intros w r w' [= <- <-]. repeat split; try done.
  exists []. by rewrite app_nil_r.
Qed.

Lemma quiet_lift {A} P (x : result A) : quiet (Ext:=Ext) P (lift x).
Proof.
  intros w r w' [= <- <-]. repeat split; try done.
  exists []. by rewrite app_nil_r.
Qed.

Lemma quiet_gets {A} P (f : W → A) : quiet P (gets f).
Proof.
  intros w r w' [= <- <-]. repeat split; try done.
  exists []. by rewrite app_nil_r.
Qed.

Lemma quiet_call {A} P (c : M Ext A) : quiet P (call c).
Proof.
  intros w r w'. unfold call. destruct (c (ext w)) as [x e]. intros [= <- <-].
  repeat split; try done. exists []. by rewrite app_nil_r.
Qed.

Lemma quiet_call_total {A} P (c : Ext → A * Ext) : quiet P (call_total c).
Proof.
  intros w r w'. unfold call_total. destruct (c (ext w)) as [x e]. intros [= <- <-].
  repeat split; try done. exists []. by rewrite app_nil_r.
Qed.

Lemma quiet_emit P (e : Event) :
  (∀ t, P (t, e)) → quiet (Ext:=Ext) P (emit e).
Proof.
  intros HP w r w' [= <- <-]. repeat split; try done.
  eexists [_]. split; [done|]. by constructor.
Qed.

Lemma quiet_bind {A B} P (c : M W A) (k : A → M W B) :
  quiet P c → (∀ a, quiet P (k a)) → quiet P (bind c k).
Proof.
  intros Hc Hk w r w'. unfold bind.
  destruct (c w) as [[a|x] w1] eqn:Hcw.
  - intros Hkw.
    destruct (Hc _ _ _ Hcw) as (? & ? & ? & ? & ? & new1 & Hlog1 & Hnew1).
    destruct (Hk _ _ _ _ Hkw) as (? & ? & ? & ? & ? & new2 & Hlog2 & Hnew2).
    repeat split; try congruence.
    exists (new1 ++ new2).
    split; [by rewrite Hlog2, Hlog1, (assoc_L (++))|by apply Forall_app].
  - intros [= <- <-]. by apply (Hc _ _ _ Hcw).
Qed.

End Quiet.


Ltac solve_quiet :=
  repeat (intros;
          first [ apply quiet_ret | apply quiet_raise | apply quiet_lift
                | apply quiet_gets | apply quiet_call | apply quiet_call_total
                | apply quiet_emit; intros; reflexivity
                | apply quiet_bind
                | case_match ]).

(** ** Reading messages *)

Section GetMessages.
Context {Ext : Type} (C : Collaborators Ext).
Local Abbreviation W := (World Ext).

Lemma quiet_read_page (a : GetMessagesArgs) : quiet no_status (read_page C a).
Proof.
  unfold read_page, resolve_max_topo, clamp_to_leave. solve_quiet.
Qed.

Lemma quiet_build_response P (a : GetMessagesArgs) events next_token member_event_id :
  quiet P (build_response C a events next_token member_event_id).
Proof.
  unfold build_response, visible_events, lazy_member_state, from_token_string.
  solve_quiet.
Qed.

Lemma acquire_eq (m : LockMode) (room_id : string) (w : W) :
  acquire m room_id w = (Ok tt, (acquire m room_id w).2).
Proof. reflexivity. Qed.

Lemma release_eq (m : LockMode) (room_id : string) (w : W) :
  release m room_id w = (Ok tt, (release m room_id w).2).
Proof. reflexivity. Qed.



Lemma read_page_log (a : GetMessagesArgs) (w : W) r w' :
  read_page C a w = (r, w') →
  ∃ new, log w' = log w ++ new ∧ Forall (read_event C a) new.
Proof.
  unfold read_page, resolve_max_topo, clamp_to_leave. mrun. intros H.
  repeat (case_match; simplify_eq; mrun);
    cbn; rewrite <-?(assoc_L (++)); cbn;
    (eexists; split; [reflexivity || (symmetry; apply app_nil_r)|]);
    repeat first [apply List.Forall_nil | apply List.Forall_cons];
    unfold read_event; cbn; repeat split; eauto 10.
Qed.

(** C6, amended: going backwards for a requester who has left, the from
    key handed to the storage read is the serialised leave token when the
    leave token's topological part is strictly below the resolved maximum,
    and the source config's own from key otherwise. *)
Theorem leave_clamp (a : GetMessagesArgs) (w : W) member_event_id e1 max_topo w2
    leave_string e3 leave_token leave_topo e4 :
  let room_id := gm_room_id a in
  let sc := gm_source_config a in
  direction sc = "b" →
  check_in_room_or_world_readable C room_id (gm_user_id a) (ext w)
    = (Ok (LEAVE, member_event_id), e1) →
  resolve_max_topo C room_id (gm_room_token a) (with_ext e1 w) = (Ok max_topo, w2) →
  get_topological_token_for_event C member_event_id (ext w2) = (Ok leave_string, e3) →
  RoomStreamToken_parse C leave_string = Ok leave_token →
  topological leave_token = Some leave_topo →
  maybe_backfill C room_id max_topo e3 = (Ok tt, e4) →
  ∃ fk r w',
    read_page C a w = (r, w')
    ∧ (leave_topo < max_topo → fk = RoomStreamToken_str C leave_token)
    ∧ (¬ leave_topo < max_topo → fk = from_key sc)
    ∧ log w' = log w ++ [(reactor_seconds w, EvBackfill room_id max_topo);
                         (reactor_seconds w,
                          EvPaginate room_id fk (to_key sc) (direction sc))]
    ∧ ext w' = (paginate_room_events C room_id fk (to_key sc) (direction sc)
                  (limit sc) (gm_event_filter a) e4).2.
Proof.
  intros room_id sc Hdir Hauth Hmax Hleave Hparse Htopo Hback.
  assert (w2 = with_ext (ext w2) w) as Hw2.
  { revert Hmax. unfold resolve_max_topo. mrun. intros Hmax.
    repeat (case_match; simplify_eq; mrun); done. }
  exists (if bool_decide (leave_topo < max_topo)
          then RoomStreamToken_str C leave_token else from_key sc).
  unfold read_page. mrun. fold room_id sc. rewrite Hauth. mrun.
  rewrite decide_True by done. rewrite Hmax.
  unfold clamp_to_leave. mrun. rewrite decide_True by done.
  rewrite Hleave. mrun. rewrite Hparse, Htopo.
  case_bool_decide as Hlt; mrun; rewrite Hw2; mrun; rewrite Hback; mrun;
    destruct (paginate_room_events C _ _ _ _ _ _ e4) as [[[events next_key]|x] e5];
    mrun; repeat case_match; simplify_eq;
    eexists _, _; (split; [reflexivity|]); cbn;
    rewrite <-?(assoc_L (++)); cbn; repeat split; try done; try lia;
    by rewrite Hw2.
Qed.

Lemma get_messages_locked_effect (a : GetMessagesArgs) (w : W) r w' :
  get_messages_locked C a w = (r, w') →
  handler w' = handler w
  ∧ pagination_lock w'
    = lock_update (released Read) (gm_room_id a) (pagination_lock w)
  ∧ reactor_seconds w' = reactor_seconds w
  ∧ delayed_calls w' = delayed_calls w
  ∧ tasks w' = tasks w
  ∧ ∃ new, log w' = log w ++ new
           ∧ Forall (λ e, read_event C a e ∨ e.2 = EvRelease Read (gm_room_id a)) new.
Proof.
  unfold get_messages_locked, try_finally, bind.
  destruct (read_page C a w) as [page w1] eqn:Hread.
  destruct (quiet_read_page a _ _ _ Hread) as (Hh & Hl & Hs & Hd & Ht & _).
  destruct (read_page_log a _ _ _ Hread) as (new1 & Hlog1 & Hnew1).
  rewrite (release_eq Read (gm_room_id a) w1).
  assert (∀ (r0 : result Response) w0,
            (r0, w0) = (r, w') →
            handler w0 = handler (release Read (gm_room_id a) w1).2 →
            pagination_lock w0 = pagination_lock (release Read (gm_room_id a) w1).2 →
            reactor_seconds w0 = reactor_seconds (release Read (gm_room_id a) w1).2 →
            delayed_calls w0 = delayed_calls (release Read (gm_room_id a) w1).2 →
            tasks w0 = tasks (release Read (gm_room_id a) w1).2 →
            log w0 = log (release Read (gm_room_id a) w1).2 →
            handler w' = handler w
            ∧ pagination_lock w'
              = lock_update (released Read) (gm_room_id a) (pagination_lock w)
            ∧ reactor_seconds w' = reactor_seconds w
            ∧ delayed_calls w' = delayed_calls w
            ∧ tasks w' = tasks w
            ∧ ∃ new, log w' = log w ++ new
                     ∧ Forall (λ e, read_event C a e
                                    ∨ e.2 = EvRelease Read (gm_room_id a)) new) as Hend.
  { intros r0 w0 [= <- <-] H1 H2 H3 H4 H5 H6. cbn in *.
    repeat split; try congruence.
    exists (new1 ++ [(reactor_seconds w1, EvRelease Read (gm_room_id a))]).
    split; [rewrite H6, Hlog1; by rewrite (assoc_L (++))|].
    apply Forall_app. split.
    - eapply Forall_impl; [exact Hnew1|]. by left.
    - apply List.Forall_cons; [by right|apply List.Forall_nil]. }
  destruct page as [[[events next_token] member_event_id]|x];
    [|intros Hr; by apply (Hend _ _ Hr)].
  intros Hbuild.
  destruct (quiet_build_response (λ _, False) a _ _ _ _ _ _ Hbuild)
    as (? & ? & ? & ? & ? & new2 & Hlog2 & Hnew2).
  destruct new2 as [|bad ?]; [|by inversion Hnew2].
  rewrite app_nil_r in Hlog2. by apply (Hend r w').
Qed.

Lemma get_messages_locked_page (a : GetMessagesArgs) (w : W) r w' :
  get_messages_locked C a w = (r, w') →
  log w' = log (read_page C a w).2
           ++ [(reactor_seconds w, EvRelease Read (gm_room_id a))].
Proof.
  unfold get_messages_locked, try_finally, bind.
  destruct (read_page C a w) as [page w1] eqn:Hread.
  destruct (quiet_read_page a _ _ _ Hread) as (_ & _ & Hs & _ & _ & _).
  rewrite (release_eq Read (gm_room_id a) w1). cbn [snd].
  assert (log (release Read (gm_room_id a) w1).2
          = log w1 ++ [(reactor_seconds w, EvRelease Read (gm_room_id a))]) as Hlog.
  { cbn. by rewrite Hs. }
  destruct page as [[[events next_token] member_event_id]|x].
  - intros Hbuild.
    destruct (quiet_build_response (λ _, False) a _ _ _ _ _ _ Hbuild)
      as (_ & _ & _ & _ & _ & new2 & Hlog2 & Hnew2).
    destruct new2 as [|bad ?]; [|by inversion Hnew2].
    rewrite app_nil_r in Hlog2. by rewrite Hlog2.
  - by intros [= _ <-].
Qed.

Lemma read_page_unclamped (a : GetMessagesArgs) (w : W) membership member_event_id e1 :
  check_in_room_or_world_readable C (gm_room_id a) (gm_user_id a) (ext w)
    = (Ok (membership, member_event_id), e1) →
  direction (gm_source_config a) ≠ "b" ∨ membership ≠ LEAVE →
  ∃ new, log (read_page C a w).2 = log w ++ new
         ∧ ∀ t room_id fk tk d,
             (t, EvPaginate room_id fk tk d) ∈ new →
             fk = from_key (gm_source_config a).
Proof.
  intros Hauth Hother.
  unfold read_page, resolve_max_topo, clamp_to_leave. mrun. rewrite Hauth. mrun.
  repeat (case_match; simplify_eq; mrun); try (by destruct Hother);
    cbn; rewrite <-?(assoc_L (++)); cbn;
    (eexists; split; [reflexivity || (symmetry; apply app_nil_r)|]);
    intros t room_id fk tk d Hin;
    repeat (apply elem_of_cons in Hin as [Hin|Hin]; [by simplify_eq|]);
    by apply elem_of_nil in Hin.
Qed.

Lemma read_page_clamped (a : GetMessagesArgs) (w : W) member_event_id e1 max_topo w2
    leave_string e3 leave_token leave_topo e4 :
  let room_id := gm_room_id a in
  let sc := gm_source_config a in
  let fk := if bool_decide (leave_topo < max_topo)
            then RoomStreamToken_str C leave_token else from_key sc in
  direction sc = "b" →
  check_in_room_or_world_readable C room_id (gm_user_id a) (ext w)
    = (Ok (LEAVE, member_event_id), e1) →
  resolve_max_topo C room_id (gm_room_token a) (with_ext e1 w) = (Ok max_topo, w2) →
  get_topological_token_for_event C member_event_id (ext w2) = (Ok leave_string, e3) →
  RoomStreamToken_parse C leave_string = Ok leave_token →
  topological leave_token = Some leave_topo →
  maybe_backfill C room_id max_topo e3 = (Ok tt, e4) →
  log (read_page C a w).2
  = log w ++ [(reactor_seconds w, EvBackfill room_id max_topo);
              (reactor_seconds w, EvPaginate room_id fk (to_key sc) (direction sc))]
  ∧ ext (read_page C a w).2
    = (paginate_room_events C room_id fk (to_key sc) (direction sc) (limit sc)
         (gm_event_filter a) e4).2.
Proof.
  intros room_id sc fk Hdir Hauth Hmax Hleave Hparse Htopo Hback.
  assert (w2 = with_ext (ext w2) w) as Hw2.
  { revert Hmax. unfold resolve_max_topo. mrun. intros Hmax.
    repeat (case_match; simplify_eq; mrun); done. }
  subst fk. unfold read_page. mrun. fold room_id sc. rewrite Hauth. mrun.
  rewrite decide_True by done. rewrite Hmax.
  unfold clamp_to_leave. mrun. rewrite decide_True by done.
  rewrite Hleave. mrun. rewrite Hparse, Htopo.
  case_bool_decide as Hlt; mrun; rewrite Hw2; mrun; rewrite Hback; mrun;
    destruct (paginate_room_events C _ _ _ _ _ _ e4) as [[[events next_key]|x] e5];
    mrun; repeat case_match; simplify_eq; cbn;
    rewrite <-?(assoc_L (++)); cbn; split; try done; by rewrite Hw2.
Qed.

(** C10, amended: [get_messages] leaves the caller's [pagin_config]
    changed in its [from_token] only.  When the starting token (the
    caller's, or the current position installed in its place) has a room
    key that parses, [from_token] holds that token with the room key
    re-serialised, whatever the call then returns or raises; when the
    room key does not parse the call raises at the parse and [from_token]
    holds the starting token as it was; when no token was given and the
    current position cannot be had, the config is untouched.  The from
    key of the room source config is overwritten only for a requester who
    has left and reads backwards, with the serialised leave token and
    exactly when its topological part is strictly below the resolved
    maximum; the storage read gets the from key as the clamp left it. *)
Theorem get_messages_mutates_config (user_id room_id : string)
    (pagin_config : PaginationConfig) (as_client_event : bool)
    (event_filter : option Filter) (w : W) :
  ∃ r pagin_config' w',
    get_messages C user_id room_id pagin_config as_client_event event_filter w
      = (r, pagin_config', w')
    ∧ match resolve_from_token C pagin_config w with
      | (Raise x, _, _) =>
          from_token pagin_config = None ∧ r = Raise x ∧ pagin_config' = pagin_config
      | (Ok t0, _, w1) =>
          match from_token pagin_config with
          | Some t => t0 = t
          | None => get_current_token_for_pagination C (ext w) = (Ok t0, ext w1)
          end
          ∧ match RoomStreamToken_parse C (room_key t0) with
            | Raise x => r = Raise x ∧ pagin_config' = set_from_token pagin_config t0
            | Ok room_token =>
                let sc := get_source_config C pagin_config' "room" in
                let a := {| gm_user_id := user_id; gm_room_id := room_id;
                            gm_pagin_config := pagin_config';
                            gm_room_token := room_token; gm_source_config := sc;
                            gm_as_client_event := as_client_event;
                            gm_event_filter := event_filter |} in
                let w2 := (acquire Read room_id w1).2 in
                pagin_config'
                = set_from_token pagin_config
                    (copy_and_replace_room_key t0 (RoomStreamToken_str C room_token))
                ∧ ∃ new,
                    log w' = log w ++ [(reactor_seconds w, EvAcquire Read room_id)]
                             ++ new ++ [(reactor_seconds w, EvRelease Read room_id)]
                    ∧ ∀ membership member_event_id e1,
                        check_in_room_or_world_readable C room_id user_id (ext w1)
                          = (Ok (membership, member_event_id), e1) →
                        (direction sc ≠ "b" ∨ membership ≠ LEAVE →
                         ∀ t room_id' fk tk d,
                           (t, EvPaginate room_id' fk tk d) ∈ new → fk = from_key sc)
                        ∧ (direction sc = "b" → membership = LEAVE →
                           ∀ max_topo w3 leave_string e3 leave_token leave_topo e4,
                             resolve_max_topo C room_id room_token (with_ext e1 w2)
                               = (Ok max_topo, w3) →
                             get_topological_token_for_event C member_event_id (ext w3)
                               = (Ok leave_string, e3) →
                             RoomStreamToken_parse C leave_string = Ok leave_token →
                             topological leave_token = Some leave_topo →
                             maybe_backfill C room_id max_topo e3 = (Ok tt, e4) →
                             let fk := if bool_decide (leave_topo < max_topo)
                                       then RoomStreamToken_str C leave_token
                                       else from_key sc in
                             new = [(reactor_seconds w, EvBackfill room_id max_topo);
                                    (reactor_seconds w,
                                     EvPaginate room_id fk (to_key sc) (direction sc))]
                             ∧ ext (read_page C a w2).2
                               = (paginate_room_events C room_id fk (to_key sc)
                                    (direction sc) (limit sc) event_filter e4).2)
            end
      end.
Proof.
  unfold get_messages, get_messages_prelude.
  destruct (resolve_from_token C pagin_config w) as [[[t0|x] cfg0] w1] eqn:Hres.
  2:{ eexists _, _, _. split; [reflexivity|].
      revert Hres. unfold resolve_from_token, call.
      destruct (from_token pagin_config) as [t|]; [done|].
      destruct (get_current_token_for_pagination C (ext w)) as [[t|x'] e]; [done|].
      by intros [= -> <- _]. }
  assert (match from_token pagin_config with
          | Some t => t0 = t
          | None => get_current_token_for_pagination C (ext w) = (Ok t0, ext w1)
          end
          ∧ cfg0 = set_from_token pagin_config t0
          ∧ log w1 = log w ∧ reactor_seconds w1 = reactor_seconds w)
    as (Hfrom & Hcfg0 & Hlog1 & Hsec1).
  { revert Hres. unfold resolve_from_token, call.
    destruct pagin_config as [[t|] tt_ dir lim]; cbn.
    - by intros [= -> <- ->].
    - destruct (get_current_token_for_pagination C (ext w)) as [[t|x] e]; [|done].
      by intros [= -> <- <-]. }
  destruct (RoomStreamToken_parse C (room_key t0)) as [room_token|x] eqn:Hparse.
  2:{ eexists _, _, _. split; [reflexivity|]. by repeat split. }
  unfold bind at 1. rewrite (acquire_eq Read room_id w1).
  match goal with
  | |- context [get_messages_locked C ?a0 ?w0] =>
      destruct (get_messages_locked C a0 w0) as [r w'] eqn:Hrun;
      pose proof (get_messages_locked_page a0 _ _ _ Hrun) as Hlog;
      destruct (read_page_log a0 w0 _ _ (surjective_pairing _)) as (new & Hnew & _)
  end.
  exists r, (set_from_token cfg0
               (copy_and_replace_room_key t0 (RoomStreamToken_str C room_token))), w'.
  split; [reflexivity|]. split; [exact Hfrom|]. cbn zeta.
  split; [by rewrite Hcfg0|].
  cbn [gm_room_id] in Hlog.
  assert (log (acquire Read room_id w1).2
          = log w ++ [(reactor_seconds w, EvAcquire Read room_id)]) as Hacq.
  { cbn. by rewrite Hlog1, Hsec1. }
  assert (reactor_seconds (acquire Read room_id w1).2 = reactor_seconds w) as Hsec
    by done.
  exists new. split.
  { rewrite Hlog, Hnew, Hacq, Hsec. by rewrite <-!(assoc_L (++)). }
  intros membership member_event_id e1 Hauth. split.
  - intros Hother.
    match type of Hnew with
    | log (read_page C ?a0 ?w0).2 = _ =>
        destruct (read_page_unclamped a0 w0 membership member_event_id e1 Hauth Hother)
          as (new' & Hnew' & Hkeys)
    end.
    rewrite Hnew in Hnew'. apply app_inv_head in Hnew'. subst new'. exact Hkeys.
  - intros Hdir -> max_topo w3 leave_string e3 leave_token leave_topo e4
      Hmax Hleave Hlparse Htopo Hback.
    match type of Hnew with
    | log (read_page C ?a0 ?w0).2 = _ =>
        destruct (read_page_clamped a0 w0 member_event_id e1 max_topo w3 leave_string
                    e3 leave_token leave_topo e4 Hdir Hauth Hmax Hleave Hlparse Htopo
                    Hback) as [Hclamped Hext]
    end.
    split; [|exact Hext].
    rewrite Hnew in Hclamped. apply app_inv_head in Hclamped.
    cbn [gm_room_id gm_source_config] in Hclamped. by rewrite Hsec in Hclamped.
Qed.


End GetMessages.

(** ** The handler on concrete requests *)

Example purge_room_unknown_room :
  (purge_room Demo.collaborators "!room"
     (Demo.world (Demo.with_room false false Demo.quiet_state))).1
  = Raise (CollaboratorError "Unknown room").
Proof. reflexivity. Qed.

Example purge_room_users_joined :
  (purge_room Demo.collaborators "!room"
     (Demo.world (Demo.with_room true true Demo.quiet_state))).1
  = Raise (SynapseError 400 "Users are still joined to this room").
Proof. reflexivity. Qed.

Example purge_room_deletes :
  let w' := (purge_room Demo.collaborators "!room" (Demo.world Demo.quiet_state)).2 in
  log w' = [(0, EvAcquire Write "!room"); (0, EvStorePurgeRoom "!room");
            (0, EvRelease Write "!room")].
Proof. reflexivity. Qed.

Example start_purge_history_twice :
  (start_purge_history Demo.collaborators "!room" "t5-7" None Demo.purge_started).1
  = Raise (SynapseError 400 "History purge already in progress for !room").
Proof. vm_compute. reflexivity. Qed.

Example sweep_with_default :
  include_null (Some 259200000) None (Some 604800000) = true.
Proof. reflexivity. Qed.

(** A requester who left at t5-50 asks backwards from t9-100: the read
    starts at the leave token. *)
Lemma leave_clamp_witness :
  ∃ r w', read_page Demo.collaborators (Demo.args 9 100) (Demo.world Demo.left_state)
          = (r, w')
          ∧ log w' = [(0, EvBackfill "!room" 9);
                      (0, EvPaginate "!room" "t5-50" None "b")].
Proof.
  destruct (leave_clamp Demo.collaborators (Demo.args 9 100)
              (Demo.world Demo.left_state) (Some "$leave") Demo.left_state 9
              (Demo.world Demo.left_state) "t5-50" Demo.left_state
              {| topological := Some 5; stream := 50 |} 5 Demo.left_state)
    as (fk & r & w' & Hrun & Hlt & _ & Hlog & _); try reflexivity.
  exists r, w'. split; [exact Hrun|].
  rewrite Hlog, Hlt by lia. reflexivity.
Defined.

(** C6 as stated fails: asking backwards from t5-100, the same requester
    is served the event at t5-60, which lies after the leave event at
    t5-50; the from key is left alone because 5 is not below 5. *)
Lemma leave_clamp_counterexample :
  ¬ (∀ (a : GetMessagesArgs) (w : World Demo.State) events next_token leave_id w',
       direction (gm_source_config a) = "b" →
       Demo.member (ext w) = (LEAVE, Some leave_id) →
       read_page Demo.collaborators a w = (Ok (events, next_token, Some leave_id), w') →
       ∀ ev, ev ∈ events → Demo.past_departure (ext w) leave_id (event_id ev) = false).
Proof.
  intros H.
  specialize (H (Demo.args 5 100) (Demo.world Demo.left_state)
                [{| event_id := "$later"; sender := "@alice:example.org" |};
                 {| event_id := "$leave"; sender := "@bob:example.org" |}]
                {| room_key := "t5-100"; other_keys := ["1"; "2"] |} "$leave"
                (read_page Demo.collaborators (Demo.args 5 100)
                   (Demo.world Demo.left_state)).2
                eq_refl eq_refl eq_refl
                {| event_id := "$later"; sender := "@alice:example.org" |}).
  discriminate H. apply list_elem_of_here.
Qed.


(** The caller's from token t09-0100 comes back as t9-100, and the
    requester, who left at t5-50, has the storage read start there. *)
Lemma get_messages_mutates_config_witness :
  ∃ r pagin_config' w',
    get_messages Demo.collaborators "@bob:example.org" "!room"
      (Demo.backwards_from "t09-0100") true None (Demo.world Demo.left_state)
    = (r, pagin_config', w')
    ∧ from_token pagin_config'
      = Some {| room_key := "t9-100"; other_keys := ["1"; "2"] |}
    ∧ log w' = [(0, EvAcquire Read "!room"); (0, EvBackfill "!room" 9);
                (0, EvPaginate "!room" "t5-50" None "b");
                (0, EvRelease Read "!room")].
Proof.
  destruct (get_messages_mutates_config Demo.collaborators "@bob:example.org" "!room"
              (Demo.backwards_from "t09-0100") true None (Demo.world Demo.left_state))
    as (r & cfg' & w' & Hrun & Hconfig).
  change (resolve_from_token Demo.collaborators (Demo.backwards_from "t09-0100")
            (Demo.world Demo.left_state))
    with (Ok {| room_key := "t09-0100"; other_keys := ["1"; "2"] |},
          Demo.backwards_from "t09-0100", Demo.world Demo.left_state) in Hconfig.
  cbv beta iota in Hconfig.
  change (RoomStreamToken_parse Demo.collaborators
            (room_key {| room_key := "t09-0100"; other_keys := ["1"; "2"] |}))
    with (Ok {| topological := Some 9; stream := 100 |} : result RoomStreamToken)
    in Hconfig.
  cbv beta iota zeta in Hconfig.
  destruct Hconfig as (_ & Hcfg & new & Hlog & Hkey).
  destruct (Hkey LEAVE (Some "$leave") Demo.left_state eq_refl) as [_ Hclamp].
  rewrite Hcfg in Hclamp.
  destruct (Hclamp eq_refl eq_refl 9
              (with_ext Demo.left_state
                 (acquire Read "!room" (Demo.world Demo.left_state)).2)
              "t5-50" Demo.left_state {| topological := Some 5; stream := 50 |} 5
              Demo.left_state eq_refl eq_refl eq_refl eq_refl eq_refl) as [Hnew _].
  exists r, cfg', w'. split; [exact Hrun|]. split; [by rewrite Hcfg|].
  rewrite Hlog, Hnew. reflexivity.
Defined.

(** C10 as stated fails: with the room key x5 the parse at line 313
    raises before line 315, and [from_token] still holds x5, which is the
    serialisation of no room token. *)
Lemma get_messages_mutates_config_counterexample :
  ¬ (∀ (pagin_config : PaginationConfig) (w : World Demo.State),
       ∃ t0 room_token,
         RoomStreamToken_parse Demo.collaborators (room_key t0) = Ok room_token
         ∧ from_token
             (get_messages Demo.collaborators "@bob:example.org" "!room" pagin_config
                true None w).1.2
           = Some (copy_and_replace_room_key t0
                     (RoomStreamToken_str Demo.collaborators room_token))).
Proof.
  intros H.
  destruct (H (Demo.backwards_from "x5") (Demo.world Demo.left_state))
    as (t0 & room_token & _ & Hfrom).
  assert (from_token
            (get_messages Demo.collaborators "@bob:example.org" "!room"
               (Demo.backwards_from "x5") true None (Demo.world Demo.left_state)).1.2
          = Some {| room_key := "x5"; other_keys := ["1"; "2"] |}) as Hkept
    by (vm_compute; reflexivity).
  rewrite Hkept in Hfrom. injection Hfrom as Hkey _.
  cbn [RoomStreamToken_str Demo.collaborators] in Hkey. unfold Demo.str in Hkey.
  destruct (topological room_token); discriminate Hkey.
Qed.

(** ** The life of a status record *)

Section Lifecycle.
Context {Ext : Type}.
Local Abbreviation W := (World Ext).

Lemma history_app (p : string) (l1 l2 : list (Z * Event)) :
  history p (l1 ++ l2) = history p l1 ++ history p l2.
Proof. apply List.filter_app. Qed.

Lemma created_ids_app (l1 l2 : list (Z * Event)) :
  created_ids (l1 ++ l2) = created_ids l1 ++ created_ids l2.
Proof. apply omap_app. Qed.

Lemma created_in_history (p : string) (t : Z) (l : list (Z * Event)) :
  (t, EvStatusCreated p) ∈ history p l → p ∈ created_ids l.
Proof.
  unfold history, created_ids. intros Hin.
  apply list_elem_of_In, List.filter_In in Hin as [Hin _].
  apply list_elem_of_In in Hin.
  apply list_elem_of_omap. by exists (t, EvStatusCreated p).
Qed.

Lemma stage_fresh (p : string) (w : W) :
  stage p w → p ∉ created_ids (log w) →
  history p (log w) = [] ∧ get_purge_status (handler w) p = None
  ∧ count (purging p) (tasks w) = 0%nat ∧ pending_dues p (delayed_calls w) = [].
Proof.
  intros [Hh ? ? ?|t0 Hh ? ? ?|t0 t1 s ? Hh ? ? ?|t0 t1 t2 s ? ? Hh ? ? ?] Hfresh;
    [done|exfalso; apply Hfresh, (created_in_history p t0); rewrite Hh; set_solver..].
Qed.

Lemma stage_ext (p : string) (w w' : W) :
  history p (log w') = history p (log w) →
  get_purge_status (handler w') p = get_purge_status (handler w) p →
  count (purging p) (tasks w') = count (purging p) (tasks w) →
  pending_dues p (delayed_calls w') = pending_dues p (delayed_calls w) →
  stage p w → stage p w'.
Proof.
  intros Hh Ht Hc Hd [?|t0|t0 t1 s|t0 t1 t2 s]; intros;
    [apply stage_unknown|apply (stage_active _ _ t0)
    |apply (stage_terminal _ _ t0 t1 s)|apply (stage_removed _ _ t0 t1 t2 s)];
    congruence.
Qed.

Lemma stage_effect (w w' : W) :
  effect w w' → NoDup (created_ids (log w')) →
  (∀ p, stage p w) → ∀ p, stage p w'.
Proof.
  intros [Hh Hc Ht Hk Hd|q Hh Hc Ht Hk Hd|q s Hs Hrun Hh Hc Ht Hk Hd
         |q due Hdue Hnow Hh Hc Ht Hk Hd Hd'] Hnodup Hinv p.
  - by apply (stage_ext p w).
  - specialize (Hh p). specialize (Ht p). specialize (Hk p). specialize (Hd p).
    destruct (decide (p = q)) as [->|Hne].
    + rewrite Hc in Hnodup. apply NoDup_app in Hnodup as (_ & Hfresh & _).
      destruct (stage_fresh q w (Hinv q)) as (Hh0 & Ht0 & Hk0 & Hd0).
      { intros Hin. apply (Hfresh _ Hin). set_solver. }
      apply (stage_active _ _ (reactor_seconds w)); [|done|lia|congruence].
      by rewrite Hh, Hh0.
    + rewrite app_nil_r in Hh. apply (stage_ext p w); [done..|lia|done|apply Hinv].
  - specialize (Hh p). specialize (Ht p). specialize (Hk p). specialize (Hd p).
    destruct (decide (p = q)) as [->|Hne].
    + destruct (Hinv q) as [? ? Hk0 ?|t0 Hh0 Ht0 Hk0 Hd0|t0 t1 s' ? ? ? Hk0 ?
                           |t0 t1 t2 s' ? ? ? ? Hk0 ?]; try lia.
      rewrite Ht0 in Hh, Ht. rewrite Hh0 in Hh. rewrite Hd0 in Hd.
      apply (stage_terminal _ _ t0 (reactor_seconds w) s); [done..|lia|done].
    + rewrite app_nil_r in Hh, Hd.
      apply (stage_ext p w); [done..|lia|done|apply Hinv].
  - specialize (Hh p). specialize (Ht p). specialize (Hk p).
    destruct (decide (p = q)) as [->|Hne].
    + specialize (Hd q). rewrite decide_True in Hd by done.
      destruct (Hinv q) as [? ? ? Hd0|t0 ? ? ? Hd0|t0 t1 s' Hs Hh0 Ht0 Hk0 Hd0
                           |t0 t1 t2 s' ? ? ? ? ? Hd0];
        try (rewrite Hd0 in Hdue; by apply elem_of_nil in Hdue).
      rewrite Hd0 in Hdue, Hd. apply list_elem_of_singleton in Hdue as ->.
      rewrite Ht0 in Hh. rewrite Hh0 in Hh.
      apply (stage_removed _ _ t0 t1 (reactor_seconds w) s'); try done; [congruence|].
      destruct (pending_dues q (delayed_calls w')); [done|cbn in Hd; lia].
    + rewrite app_nil_r in Hh.
      apply (stage_ext p w); [done..|by apply Hd'|apply Hinv].
Qed.

Lemma stage_lifecycle (p : string) (w : W) :
  stage p w → lifecycle p (history p (log w)) (get_purge_status (handler w) p).
Proof.
  intros [Hh Ht _ _|t0 Hh Ht _ _|t0 t1 s Hs Hh Ht _ _|t0 t1 t2 s Hs Hle Hh Ht _ _];
    rewrite Hh, Ht; by constructor.
Qed.

Lemma effect_created (w w' : W) :
  effect w w' → ∃ l, created_ids (log w') = created_ids (log w) ++ l.
Proof.
  intros [_ Hc _ _ _|q _ Hc _ _ _|q s _ _ _ Hc _ _ _|q due _ _ _ Hc _ _ _ _];
    rewrite Hc; [exists []|by exists [q]|exists []..]; by rewrite app_nil_r.
Qed.

End Lifecycle.

(** ** Counting in task and timer lists *)

Section Counting.
Context {A : Type} (f : A → bool).

Lemma count_app (l1 l2 : list A) : count f (l1 ++ l2) = (count f l1 + count f l2)%nat.
Proof. unfold count. by rewrite List.filter_app, length_app. Qed.

Lemma count_insert (l : list A) (i : nat) (x y : A) :
  l !! i = Some x →
  (count f (<[i:=y]> l) + if f x then 1 else 0)%nat
  = (count f l + if f y then 1 else 0)%nat.
Proof.
  unfold count. revert i. induction l as [|z l IH]; intros [|i] Hi; try done.
  - injection Hi as ->. cbn.
    destruct (f x), (f y); cbn; rewrite ?Nat.add_0_r, ?Nat.add_1_r; done.
  - cbn in Hi. specialize (IH i Hi). cbn.
    destruct (f z); cbn; [f_equal|]; exact IH.
Qed.

Lemma count_insert_same (l : list A) (i : nat) (x y : A) :
  l !! i = Some x → f x = f y → count f (<[i:=y]> l) = count f l.
Proof.
  intros Hi Hxy. pose proof (count_insert l i x y Hi) as Hc.
  rewrite Hxy in Hc. by apply Nat.add_cancel_r in Hc.
Qed.

Lemma count_one (x : A) : count f [x] = if f x then 1%nat else 0%nat.
Proof. unfold count. cbn. by destruct (f x). Qed.

Lemma count_lookup (l : list A) (i : nat) (x : A) :
  l !! i = Some x → f x = true → (0 < count f l)%nat.
Proof.
  unfold count. revert i. induction l as [|z l IH]; intros [|i] Hi Hx; try done.
  - injection Hi as ->. cbn. rewrite Hx. cbn. apply Nat.lt_0_succ.
  - cbn in Hi. specialize (IH i Hi Hx). cbn.
    destruct (f z); cbn; [by apply Nat.lt_lt_succ_r|done].
Qed.

Lemma count_lookup2 (l : list A) (i j : nat) (x y : A) :
  l !! i = Some x → l !! j = Some y → i ≠ j → f x = true → f y = true →
  (2 <= count f l)%nat.
Proof.
  revert i j. induction l as [|z l IH]; intros [|i] [|j] Hi Hj Hij Hx Hy; try done.
  - injection Hi as ->. cbn in Hj. pose proof (count_lookup l j y Hj Hy) as Hc.
    unfold count in *. cbn. rewrite Hx. cbn. by apply ->Nat.succ_le_mono.
  - injection Hj as ->. cbn in Hi. pose proof (count_lookup l i x Hi Hx) as Hc.
    unfold count in *. cbn. rewrite Hy. cbn. by apply ->Nat.succ_le_mono.
  - cbn in Hi, Hj. assert (i ≠ j) as Hne by congruence.
    specialize (IH i j Hi Hj Hne Hx Hy).
    unfold count in *. cbn. destruct (f z); cbn; [by apply Nat.le_le_succ_r|done].
Qed.

Lemma filter_insert_same (l : list A) (i : nat) (x y : A) :
  l !! i = Some x → f x = f y →
  List.filter f (<[i:=y]> l) = List.filter f l ∨ f x = true.
Proof.
  revert i. induction l as [|z l IH]; intros [|i] Hi Hxy; try done.
  - injection Hi as ->. cbn. rewrite <-Hxy. destruct (f x); [by right|by left].
  - cbn in Hi. destruct (IH i Hi Hxy) as [Heq|?]; [left|by right].
    change (<[S i:=y]> (z :: l)) with (z :: <[i:=y]> l).
    cbn [List.filter]. by rewrite Heq.
Qed.

Lemma filter_insert_false (l : list A) (i : nat) (x y : A) :
  l !! i = Some x → f x = false → f y = false →
  List.filter f (<[i:=y]> l) = List.filter f l.
Proof.
  intros Hi Hx Hy. destruct (filter_insert_same l i x y Hi) as [?|?]; congruence.
Qed.

Lemma filter_lookup (l : list A) (i : nat) (x : A) :
  l !! i = Some x → f x = true → x ∈ List.filter f l.
Proof.
  intros Hi Hx. apply list_elem_of_In, List.filter_In. split; [|done].
  apply list_elem_of_In. by eapply list_elem_of_lookup_2.
Qed.

End Counting.

(** ** Every scheduling step has one of the four effects *)

Section StepEffect.
Context {Ext : Type} (C : Collaborators Ext).
Local Abbreviation W := (World Ext).

Lemma history_no_status (p : string) (new : list (Z * Event)) :
  Forall no_status new → history p new = [].
Proof.
  induction 1 as [|e new He _ IH]; [done|].
  unfold history in *. cbn. rewrite IH. unfold about. rewrite He.
  by rewrite bool_decide_eq_false_2.
Qed.

Lemma created_ids_no_status (new : list (Z * Event)) :
  Forall no_status new → created_ids new = [].
Proof.
  induction 1 as [|[t e] new He _ IH]; [done|].
  unfold created_ids in *. cbn. rewrite IH.
  unfold no_status in He. by destruct e.
Qed.

Lemma history_one (p q : string) (t : Z) (e : Event) :
  status_event_of e = Some q →
  history p [(t, e)] = if decide (p = q) then [(t, e)] else [].
Proof.
  intros He. unfold history, about. cbn. rewrite He.
  case_bool_decide; case_decide; congruence.
Qed.

Lemma count_purging_one (p : string) (co : Coroutine) (ph : Phase) :
  count (purging p) [(co, ph)] = if purging p (co, ph) then 1%nat else 0%nat.
Proof. unfold count. cbn. by destruct (purging p (co, ph)). Qed.

Lemma purging_other (p : string) (co : Coroutine) (ph : Phase) :
  (∀ q room_id token d, co ≠ PurgeHistoryCo q room_id token d) →
  purging p (co, ph) = false.
Proof. intros Hco. destruct co; try done. by edestruct Hco. Qed.

(** A step that leaves the tables and timers alone, adds no status event
    and changes no unfinished purge coroutine. *)
Lemma effect_silent (w w' : W) (new : list (Z * Event)) :
  handler w' = handler w →
  delayed_calls w' = delayed_calls w →
  log w' = log w ++ new → Forall no_status new →
  (∀ p, count (purging p) (tasks w') = count (purging p) (tasks w)) →
  effect w w'.
Proof.
  intros Hh Hd Hl Hnew Hk. apply effect_none; try done.
  - intros p. rewrite Hl, history_app, (history_no_status p new) by done.
    by rewrite app_nil_r.
  - rewrite Hl, created_ids_app, (created_ids_no_status new) by done.
    by rewrite app_nil_r.
  - intros p. unfold get_purge_status. by rewrite Hh.
  - intros p. by rewrite Hd.
Qed.

Lemma effect_launch (w w' : W) (q room_id token : string) (d : bool) :
  _purges_by_id (handler w') = <[q := PurgeStatus_new]> (_purges_by_id (handler w)) →
  delayed_calls w' = delayed_calls w →
  log w' = log w ++ [(reactor_seconds w, EvStatusCreated q);
                     (reactor_seconds w, EvBackground q room_id token d)] →
  tasks w' = tasks w ++ [(PurgeHistoryCo q room_id token d, AwaitingLock)] →
  effect w w'.
Proof.
  intros Hh Hd Hl Hk. apply (effect_create _ _ q).
  - intros p. rewrite Hl, history_app. f_equal.
    change [(reactor_seconds w, EvStatusCreated q);
            (reactor_seconds w, EvBackground q room_id token d)]
      with ([(reactor_seconds w, EvStatusCreated q)]
            ++ [(reactor_seconds w, EvBackground q room_id token d)]).
    rewrite history_app, (history_one p q) by done.
    rewrite (history_no_status p [_]) by (by repeat constructor).
    by rewrite app_nil_r.
  - by rewrite Hl, created_ids_app.
  - intros p. unfold get_purge_status. rewrite Hh, lookup_insert.
    repeat case_decide; simplify_eq; done.
  - intros p. rewrite Hk, count_app, count_purging_one. f_equal.
    unfold purging. cbn.
    destruct (decide (p = q)) as [->|];
      [rewrite bool_decide_eq_true_2 by done
      |rewrite bool_decide_eq_false_2 by done]; done.
  - intros p. by rewrite Hd.
Qed.

Lemma start_purge_history_effect room_id token d (w : W) r w' :
  start_purge_history C room_id token d w = (r, w') → effect w w'.
Proof.
  unfold start_purge_history. mrun.
  destruct (decide (room_id ∈ _)) as [|_]; mrun.
  { intros [= _ <-]. eapply (effect_silent _ _ []); try done.
    by rewrite app_nil_r. }
  unfold create_purge_status, run_in_background, _purge_history_start. mrun.
  destruct (random_string C 16 (ext w)) as [q e]. mrun. intros [= _ <-].
  eapply (effect_launch _ _ q); cbn; try done.
  by rewrite <-(assoc_L (++)).
Qed.

Lemma retention_room_effect room_id policy (w : W) r w' :
  retention_room C room_id policy w = (r, w') → effect w w'.
Proof.
  assert (∀ e, effect w (with_ext e w)) as Hidle.
  { intros e. eapply (effect_silent _ _ []); try done. by rewrite app_nil_r. }
  unfold retention_room. mrun.
  destruct (decide (room_id ∈ _)) as [|_]; mrun.
  { intros [= _ <-]. eapply (effect_silent _ _ []); try done.
    by rewrite app_nil_r. }
  destruct (time_msec C (ext w)) as [now e1]. mrun.
  destruct (match max_lifetime policy with Some m => Some m | None => _ end) as [lifetime|];
    mrun; [|intros [= _ <-]; apply Hidle].
  destruct (find_first_stream_ordering_after_ts C _ e1) as [[so|x] e2]; mrun;
    [|intros [= _ <-]; apply Hidle].
  destruct (get_room_event_after_stream_ordering C room_id so e2) as [[[ans|]|x] e3]; mrun;
    [|intros [= _ <-]; apply Hidle..].
  destruct ans as [[stream_ topo] ev].
  unfold create_purge_status, run_as_background_process, run_in_background,
    _purge_history_start. mrun.
  destruct (random_string C 16 e3) as [q e4]. mrun. intros [= _ <-].
  eapply (effect_launch _ _ q); cbn; try done.
  by rewrite <-(assoc_L (++)).
Qed.

Lemma prelude_world pagin_config (w : W) r pagin_config' w' :
  get_messages_prelude C pagin_config w = (r, pagin_config', w') →
  ∃ e, w' = with_ext e w.
Proof.
  unfold get_messages_prelude, resolve_from_token, call.
  destruct (from_token pagin_config) as [t|].
  - intros H. exists (ext w). destruct w. cbn.
    repeat case_match; by simplify_eq.
  - destruct (get_current_token_for_pagination C (ext w)) as [[t|x] e];
      intros H; exists e; repeat case_match; by simplify_eq.
Qed.

Lemma purge_room_locked_effect room_id (w : W) r w' :
  purge_room_locked C room_id w = (r, w') →
  handler w' = handler w
  ∧ pagination_lock w' = lock_update (released Write) room_id (pagination_lock w)
  ∧ reactor_seconds w' = reactor_seconds w
  ∧ delayed_calls w' = delayed_calls w
  ∧ tasks w' = tasks w
  ∧ ∃ new, log w' = log w ++ new ∧ Forall no_status new.
Proof.
  unfold purge_room_locked, release. mrun. intros H.
  repeat (case_match; simplify_eq; mrun); cbn;
    repeat split; try done;
    rewrite <-?(assoc_L (++)); (eexists; split; [reflexivity|]);
    by repeat constructor.
Qed.

Lemma purge_history_locked_effect q room_id token d (w : W) r w' i ph :
  tasks w !! i = Some (PurgeHistoryCo q room_id token d, ph) →
  ph ≠ Finished →
  _purge_history_locked C q room_id token d w = (r, w') →
  effect w (with_tasks (<[i := (PurgeHistoryCo q room_id token d, Finished)]>) w').
Proof.
  intros Hi Hph.
  assert (0 < count (purging q) (tasks w))%nat as Hrun.
  { apply (count_lookup _ _ i _ Hi). unfold purging. cbn.
    rewrite bool_decide_eq_true_2, bool_decide_eq_false_2; done. }
  assert (∀ p, (count (purging p)
                  (<[i := (PurgeHistoryCo q room_id token d, Finished)]> (tasks w))
                + if decide (p = q) then 1 else 0)%nat
               = count (purging p) (tasks w)) as Hcount.
  { intros p.
    pose proof (count_insert (purging p) _ i _
                  (PurgeHistoryCo q room_id token d, Finished) Hi) as Hc.
    assert (purging p (PurgeHistoryCo q room_id token d, ph) = bool_decide (q = p))
      as Hbefore.
    { unfold purging. cbn. rewrite (bool_decide_eq_false_2 (ph = Finished)) by done.
      apply andb_true_r. }
    assert (purging p (PurgeHistoryCo q room_id token d, Finished) = false) as Hafter.
    { unfold purging. cbn. apply andb_false_r. }
    rewrite Hbefore, Hafter, Nat.add_0_r in Hc. rewrite <-Hc.
    f_equal. case_bool_decide; case_decide; congruence. }
  unfold _purge_history_locked, set_purge_status, callLater, release. mrun.
  destruct (storage_purge_history C room_id token d (ext w)) as [[[]|x] e]; mrun;
    destruct (_purges_by_id (handler w) !! q) as [st|] eqn:Hq; mrun;
    rewrite ?Hq; mrun; intros [= _ <-];
    [apply (effect_finish _ _ q STATUS_COMPLETE)
    |apply (effect_finish _ _ q STATUS_COMPLETE)
    |apply (effect_finish _ _ q STATUS_FAILED)
    |apply (effect_finish _ _ q STATUS_FAILED)];
    cbn; try done;
    try (intros p; unfold get_purge_status; cbn; rewrite Hq;
         rewrite ?lookup_insert; repeat case_decide; congruence).
  all: try (rewrite <-?(assoc_L (++)), !created_ids_app; cbn; by rewrite app_nil_r).
  all: try (intros p; unfold pending_dues; rewrite List.filter_app, fmap_app;
              f_equal; cbn; unfold pending; cbn;
              case_bool_decide; case_decide; cbn; congruence).
  all: intros p; unfold get_purge_status, history; rewrite Hq;
    rewrite <-?(assoc_L (++)), List.filter_app; f_equal; cbn;
    unfold about; cbn;
    repeat case_bool_decide; case_decide; simplify_eq; done.
Qed.

Lemma delayed_call_effect j dc (w : W) r w' :
  delayed_calls w !! j = Some dc →
  dc_called dc = false →
  dc_due dc <= reactor_seconds w →
  clear_purge (dc_purge_id dc) w = (r, w') →
  effect w (with_delayed_calls (<[j := mark_called dc]>) w').
Proof.
  intros Hj Hcalled Hdue.
  assert (∀ p, pending p dc = bool_decide (dc_purge_id dc = p)) as Hbefore.
  { intros p. unfold pending. rewrite Hcalled. apply andb_true_r. }
  assert (∀ p, pending p (mark_called dc) = false) as Hafter.
  { intros p. unfold pending. cbn. apply andb_false_r. }
  assert (dc_due dc ∈ pending_dues (dc_purge_id dc) (delayed_calls w)) as Hin.
  { unfold pending_dues. apply list_elem_of_fmap. exists dc. split; [done|].
    apply (filter_lookup _ _ j); [done|].
    rewrite Hbefore. by apply bool_decide_eq_true_2. }
  assert (∀ p, (length (pending_dues p (<[j := mark_called dc]> (delayed_calls w)))
                + if decide (p = dc_purge_id dc) then 1 else 0)%nat
               = length (pending_dues p (delayed_calls w))) as Hlen.
  { intros p. unfold pending_dues. rewrite !length_fmap.
    pose proof (count_insert (pending p) _ j _ (mark_called dc) Hj) as Hc.
    rewrite Hbefore, Hafter, Nat.add_0_r in Hc. unfold count in Hc. rewrite <-Hc.
    f_equal. case_bool_decide; case_decide; congruence. }
  assert (∀ p, p ≠ dc_purge_id dc →
               pending_dues p (<[j := mark_called dc]> (delayed_calls w))
               = pending_dues p (delayed_calls w)) as Hother.
  { intros p Hp. unfold pending_dues. f_equal.
    apply (filter_insert_false _ _ j dc); [done| |done].
    rewrite Hbefore. by apply bool_decide_eq_false_2. }
  unfold clear_purge. mrun.
  destruct (_purges_by_id (handler w) !! dc_purge_id dc) as [st|] eqn:Hq; mrun;
    intros [= _ <-];
    apply (effect_clear _ _ (dc_purge_id dc) (dc_due dc)); cbn; try done.
  - intros p. unfold get_purge_status, history. rewrite Hq.
    rewrite List.filter_app. f_equal. cbn. unfold about. cbn.
    case_bool_decide; case_decide; simplify_eq; done.
  - rewrite created_ids_app. cbn. by rewrite app_nil_r.
  - intros p. unfold get_purge_status. cbn. rewrite lookup_delete.
    repeat case_decide; congruence.
  - intros p. unfold get_purge_status. rewrite Hq.
    case_decide; by rewrite app_nil_r.
  - intros p. unfold get_purge_status. case_decide; congruence.
Qed.

Lemma step_effect (w w' : W) : step C w w' → effect w w'.
Proof.
  intros [room_id token d w0 r w0' Hrun
         |room_id policy w0 r w0' Hrun
         |room_id w0
         |user_id room_id cfg ace ef w0 rt sc cfg' w0' Hpre
         |i co w0 Hi Hgrant
         |i co w0 r w0' Hi Hrun
         |j dc w0 r w0' Hj Hcalled Hdue Hrun
         |dt w0 Hdt
         |e w0].
  - by eapply start_purge_history_effect.
  - by eapply retention_room_effect.
  - eapply (effect_silent _ _ []); wsimpl; try done; [by rewrite app_nil_r|].
    intros p. rewrite count_app, count_purging_one. apply Nat.add_0_r.
  - destruct (prelude_world _ _ _ _ _ Hpre) as [e ->].
    eapply (effect_silent _ _ []); wsimpl; try done; [by rewrite app_nil_r|].
    intros p. rewrite count_app, count_purging_one. apply Nat.add_0_r.
  - eapply (effect_silent _ _ [_]); wsimpl; try done; [by repeat constructor|].
    intros p. apply (count_insert_same _ _ i _ _ Hi).
    unfold purging. cbn. by destruct co.
  - destruct co as [q room_id token d|room_id|a]; cbn in Hrun.
    + by eapply (purge_history_locked_effect q room_id token d w0 r w0' i HoldingLock).
    + destruct (purge_room_locked_effect _ _ _ _ Hrun)
        as (Hh & _ & _ & Hd & Ht & new & Hl & Hnew).
      eapply (effect_silent _ _ new); wsimpl; try done.
      intros p. rewrite Ht. by apply (count_insert_same _ _ i _ _ Hi).
    + unfold bind in Hrun.
      destruct (get_messages_locked C a w0) as [x w1] eqn:Hget.
      assert (w0' = w1) as ->.
      { destruct x; [unfold ret in Hrun|]; by injection Hrun. }
      destruct (get_messages_locked_effect C _ _ _ _ Hget)
        as (Hh & _ & _ & Hd & Ht & new & Hl & Hnew).
      eapply (effect_silent _ _ new); wsimpl; try done.
      * eapply Forall_impl; [exact Hnew|].
        intros [t ev] [Hev|Hev]; cbn in Hev; [|by subst].
        unfold read_event in Hev. by destruct ev.
      * intros p. rewrite Ht. by apply (count_insert_same _ _ i _ _ Hi).
  - by eapply delayed_call_effect.
  - eapply (effect_silent _ _ []); wsimpl; try done. by rewrite app_nil_r.
  - eapply (effect_silent _ _ []); wsimpl; try done. by rewrite app_nil_r.
Qed.

End StepEffect.

(** ** The status record of a purge *)

Section PurgeLifecycle.
Context {Ext : Type} (C : Collaborators Ext).
Local Abbreviation W := (World Ext).

Lemma reachable_stage hostname default_lifetime e t0 (w : W) :
  reachable C (init_world (PaginationHandler_init hostname default_lifetime) e t0) w →
  NoDup (created_ids (log w)) →
  ∀ p, stage p w.
Proof.
  induction 1 as [|w w' _ IH Hstep]; intros Hnodup p.
  - by apply stage_unknown.
  - pose proof (step_effect C _ _ Hstep) as Heff.
    apply (stage_effect w w' Heff Hnodup). apply IH.
    destruct (effect_created _ _ Heff) as [l Hl].
    rewrite Hl in Hnodup. by apply NoDup_app in Hnodup as [? _].
Qed.

(** C3: in every run of the handler in which purge ids are not drawn
    twice, the status record of a purge is created Active, is set once,
    to Complete when the storage purge returns and to Failed when it
    raises, at the moment the cleanup is scheduled 24 hours ahead, is not
    touched again, and leaves the table only when that cleanup runs, no
    earlier than 24 hours after the status was set. *)
Theorem purge_status_lifecycle hostname default_lifetime e t0 (w : W) :
  reachable C (init_world (PaginationHandler_init hostname default_lifetime) e t0) w →
  NoDup (created_ids (log w)) →
  (∀ p, lifecycle p (history p (log w)) (get_purge_status (handler w) p))
  ∧ (∀ i p room_id token d ph,
       tasks w !! i = Some (PurgeHistoryCo p room_id token d, ph) →
       ph ≠ Finished →
       get_purge_status (handler w) p = Some {| status := STATUS_ACTIVE |}
       ∧ get_purge_status (handler (_purge_history_locked C p room_id token d w).2) p
         = Some {| status := if is_ok (storage_purge_history C room_id token d (ext w)).1
                             then STATUS_COMPLETE else STATUS_FAILED |}).
Proof.
  intros Hreach Hnodup.
  pose proof (reachable_stage _ _ _ _ _ Hreach Hnodup) as Hstage.
  split; [intros p; apply stage_lifecycle, Hstage|].
  intros i p room_id token d ph Hi Hph.
  assert (0 < count (purging p) (tasks w))%nat as Hrun.
  { apply (count_lookup _ _ i _ Hi). unfold purging. cbn.
    rewrite bool_decide_eq_true_2, bool_decide_eq_false_2; done. }
  destruct (Hstage p) as [_ _ Hk _|t0' _ Ht _ _|t0' t1 s _ _ _ Hk _
                         |t0' t1 t2 s _ _ _ _ Hk _]; try lia.
  split; [done|].
  unfold get_purge_status in *.
  unfold _purge_history_locked, set_purge_status, callLater, release. mrun.
  destruct (storage_purge_history C room_id token d (ext w)) as [[[]|x] e']; mrun;
    rewrite Ht; mrun; apply lookup_insert_eq.
Qed.

End PurgeLifecycle.

(** One purge followed from request to cleanup on the stand-in. *)
Lemma purge_status_lifecycle_witness :
  lifecycle "purge0"
    [(0, EvStatusCreated "purge0"); (0, EvStatusSet "purge0" STATUS_COMPLETE);
     (0, EvCallLater (0 + 24 * 3600) "purge0"); (86400, EvStatusDeleted "purge0")]
    None.
Proof.
  assert (reachable Demo.collaborators (Demo.world Demo.quiet_state) Demo.purge_cleared)
    as Hreach.
  { eapply reachable_step; [eapply reachable_step; [eapply reachable_step;
      [eapply reachable_step; [eapply reachable_step; [apply reachable_refl|]|]|]|]|].
    - eapply (step_start_purge_history _ "!room" "t5-7" None). reflexivity.
    - apply (step_grant _ 0%nat Demo.purge_co Demo.purge_started);
        vm_compute; reflexivity.
    - eapply (step_run _ 0%nat Demo.purge_co Demo.purge_granted).
      + vm_compute; reflexivity.
      + apply surjective_pairing.
    - apply (step_advance _ 86400 Demo.purge_finished). lia.
    - eapply (step_delayed_call _ 0%nat
                {| dc_due := 86400; dc_purge_id := "purge0"; dc_called := false |}
                Demo.a_day_later).
      + vm_compute; reflexivity.
      + reflexivity.
      + vm_compute. discriminate.
      + apply surjective_pairing. }
  assert (NoDup (created_ids (log Demo.purge_cleared))) as Hnodup.
  { vm_compute. apply NoDup_singleton. }
  pose proof (proj1 (purge_status_lifecycle Demo.collaborators _ _ _ _ _ Hreach Hnodup)
                "purge0") as Hlife.
  vm_compute in Hlife. vm_compute. exact Hlife.
Defined.

(** ** The lock table and the coroutines *)

Section LockInvariant.
Context {Ext : Type}.
Local Abbreviation W := (World Ext).

Lemma lock_of_update (f : RoomLockState → RoomLockState) (room_id r : string)
    (L : gmap string RoomLockState) :
  lock_of (lock_update f room_id L) r
  = if decide (r = room_id) then f (lock_of L r) else lock_of L r.
Proof.
  unfold lock_of, lock_update. case_decide as Hr.
  - subst r. by rewrite lookup_insert_eq.
  - by rewrite lookup_insert_ne.
Qed.

Lemma in_phase_eq ph m r co ph' :
  in_phase ph m r (co, ph')
  = bool_decide (ph' = ph) && bool_decide (lock_mode co = m)
    && bool_decide (lock_room co = r).
Proof. reflexivity. Qed.

Lemma lock_inv_init (h : PaginationHandler) (e : Ext) (t0 : Z) :
  lock_inv (init_world h e t0).
Proof.
  intros r. unfold lock_of, init_world. cbn [pagination_lock tasks].
  by rewrite lookup_empty.
Qed.

Ltac decide_all :=
  repeat match goal with
    | |- context [bool_decide ?P] =>
        first [rewrite (bool_decide_eq_true_2 P) by congruence
              |rewrite (bool_decide_eq_false_2 P) by congruence]
    | H : context [bool_decide ?P] |- _ =>
        first [rewrite (bool_decide_eq_true_2 P) in H by congruence
              |rewrite (bool_decide_eq_false_2 P) in H by congruence]
    end.

Lemma lock_inv_effect (w w' : W) : lock_effect w w' → lock_inv w → lock_inv w'.
Proof.
  intros [HL HK|co HL HK|i co Hi Hgrant HL HK|i co Hi HL HK] Hinv r;
    destruct (Hinv r) as (Hr & Hw & Hq & Hx); cbn zeta in *; rewrite HL, HK.
  - done.
  - rewrite !count_app, !count_one, <-Hr, <-Hw, <-Hq, !in_phase_eq.
    destruct (lock_of (pagination_lock w) r) as [rc wh wq].
    destruct (decide (r = lock_room co)) as [->|Hne];
      destruct (lock_mode co), wh; decide_all; cbn in *;
      repeat split; try done; lia.
  - pose proof (count_insert (in_phase HoldingLock Read r) _ i _ (co, HoldingLock) Hi)
      as Hc1.
    pose proof (count_insert (in_phase HoldingLock Write r) _ i _ (co, HoldingLock) Hi)
      as Hc2.
    pose proof (count_insert (in_phase AwaitingLock Write r) _ i _ (co, HoldingLock) Hi)
      as Hc3.
    rewrite <-Hr in Hc1. rewrite <-Hw in Hc2. rewrite <-Hq in Hc3.
    rewrite !in_phase_eq in Hc1, Hc2, Hc3.
    revert Hgrant Hc1 Hc2 Hc3. unfold can_grant.
    destruct (decide (r = lock_room co)) as [->|Hne].
    + destruct (lock_of (pagination_lock w) (lock_room co)) as [rc wh wq].
      destruct (lock_mode co), wh; cbn; try done; intros Hg;
        case_bool_decide; try done; subst; decide_all; cbn in *;
        intros; repeat split; try done; lia.
    + destruct (lock_of (pagination_lock w) r) as [rc wh wq].
      intros _. decide_all. rewrite ?andb_false_r. cbn in *.
      intros; repeat split; try done; lia.
  - pose proof (count_insert (in_phase HoldingLock Read r) _ i _ (co, Finished) Hi)
      as Hc1.
    pose proof (count_insert (in_phase HoldingLock Write r) _ i _ (co, Finished) Hi)
      as Hc2.
    pose proof (count_insert (in_phase AwaitingLock Write r) _ i _ (co, Finished) Hi)
      as Hc3.
    rewrite <-Hr in Hc1. rewrite <-Hw in Hc2. rewrite <-Hq in Hc3.
    rewrite !in_phase_eq in Hc1, Hc2, Hc3.
    revert Hc1 Hc2 Hc3.
    destruct (decide (r = lock_room co)) as [->|Hne].
    + destruct (lock_of (pagination_lock w) (lock_room co)) as [rc wh wq].
      destruct (lock_mode co), wh; decide_all; cbn in *;
        intros; repeat split; try done; lia.
    + destruct (lock_of (pagination_lock w) r) as [rc wh wq].
      decide_all. rewrite ?andb_false_r. cbn in *.
      intros; repeat split; try done; lia.
Qed.

End LockInvariant.

Section LockSteps.
Context {Ext : Type} (C : Collaborators Ext).
Local Abbreviation W := (World Ext).

Lemma purge_history_locked_lock q room_id token d (w : W) r w' :
  _purge_history_locked C q room_id token d w = (r, w') →
  pagination_lock w' = lock_update (released Write) room_id (pagination_lock w)
  ∧ tasks w' = tasks w.
Proof.
  unfold _purge_history_locked, set_purge_status, callLater, release. mrun. intros H.
  repeat (case_match; simplify_eq; mrun); done.
Qed.

Lemma lock_effect_launch (w0 w : W) q room_id token d :
  pagination_lock w0 = pagination_lock w → tasks w0 = tasks w →
  lock_effect w
    (with_tasks (λ l, l ++ [(PurgeHistoryCo q room_id token d, AwaitingLock)])
       (with_lock (lock_update (requested Write) room_id) w0)).
Proof.
  intros HL HK. apply (lock_effect_request _ _ (PurgeHistoryCo q room_id token d)).
  - intros r. wsimpl. by rewrite lock_of_update, HL.
  - wsimpl. by rewrite HK.
Qed.

Lemma step_lock_effect (w w' : W) : step C w w' → lock_effect w w'.
Proof.
  intros [room_id token d w0 r w0' Hrun
         |room_id policy w0 r w0' Hrun
         |room_id w0
         |user_id room_id cfg ace ef w0 rt sc cfg' w0' Hpre
         |i co w0 Hi Hgrant
         |i co w0 r w0' Hi Hrun
         |j dc w0 r w0' Hj Hcalled Hdue Hrun
         |dt w0 Hdt
         |e w0].
  - revert Hrun. unfold start_purge_history. mrun.
    destruct (decide (room_id ∈ _)) as [|_]; mrun.
    { intros [= _ <-]. by apply lock_effect_none. }
    unfold create_purge_status, run_in_background, _purge_history_start. mrun.
    destruct (random_string C 16 (ext w0)) as [q e]. mrun. intros [= _ <-].
    by apply (lock_effect_launch _ w0 q room_id token).
  - revert Hrun. unfold retention_room. mrun.
    destruct (decide (room_id ∈ _)) as [|_]; mrun.
    { intros [= _ <-]. by apply lock_effect_none. }
    destruct (time_msec C (ext w0)) as [now e1]. mrun.
    destruct (match max_lifetime policy with Some m => Some m | None => _ end)
      as [lifetime|]; mrun; [|intros [= _ <-]; by apply lock_effect_none].
    destruct (find_first_stream_ordering_after_ts C _ e1) as [[so|x] e2]; mrun;
      [|intros [= _ <-]; by apply lock_effect_none].
    destruct (get_room_event_after_stream_ordering C room_id so e2)
      as [[[ans|]|x] e3]; mrun;
      [|intros [= _ <-]; by apply lock_effect_none..].
    destruct ans as [[stream_ topo] ev].
    unfold create_purge_status, run_as_background_process, run_in_background,
      _purge_history_start. mrun.
    destruct (random_string C 16 e3) as [q e4]. mrun. intros [= _ <-].
    by apply (lock_effect_launch _ w0 q room_id).
  - apply (lock_effect_request _ _ (PurgeRoomCo room_id)); wsimpl; [|done].
    intros r. by rewrite lock_of_update.
  - destruct (prelude_world C _ _ _ _ _ Hpre) as [e ->].
    eapply lock_effect_request; wsimpl; [|done].
    intros r. cbn. by case_decide.
  - apply (lock_effect_grant _ _ i co); wsimpl; try done.
    intros r. by rewrite lock_of_update.
  - assert (pagination_lock w0'
            = lock_update (released (lock_mode co)) (lock_room co) (pagination_lock w0)
            ∧ tasks w0' = tasks w0) as [HL HK].
    { destruct co as [q room_id token d|room_id|a]; cbn in Hrun.
      - by eapply purge_history_locked_lock.
      - by destruct (purge_room_locked_effect C _ _ _ _ Hrun) as (_ & ? & _ & _ & ? & _).
      - unfold bind in Hrun.
        destruct (get_messages_locked C a w0) as [x w1] eqn:Hget.
        assert (w0' = w1) as ->.
        { destruct x; [unfold ret in Hrun|]; by injection Hrun. }
        by destruct (get_messages_locked_effect C _ _ _ _ Hget)
          as (_ & ? & _ & _ & ? & _). }
    apply (lock_effect_release _ _ i co); wsimpl; try done.
    + intros rm. by rewrite HL, lock_of_update.
    + by rewrite HK.
  - apply lock_effect_none; wsimpl;
      revert Hrun; unfold clear_purge; mrun; intros Hrun;
      repeat (case_match; simplify_eq; mrun); done.
  - by apply lock_effect_none.
  - by apply lock_effect_none.
Qed.

Lemma reachable_lock_inv h e t0 (w : W) :
  reachable C (init_world h e t0) w → lock_inv w.
Proof.
  induction 1 as [|w w' _ IH Hstep]; [apply lock_inv_init|].
  by apply (lock_inv_effect w w' (step_lock_effect _ _ Hstep)).
Qed.

End LockSteps.

(** ** Readers and writers of a room *)

Section LockExclusion.
Context {Ext : Type} (C : Collaborators Ext).
Local Abbreviation W := (World Ext).

(** C8: in every reachable state and for every room, while a purge
    ([_purge_history] or [purge_room]) holds the write lock no read and
    no other write is granted and nobody else holds the lock; while a
    [get_messages] holds the read lock no write is granted; a read is
    granted as soon as no purge holds or waits for this room, and a write
    as soon as nobody holds this room, however many reads hold it and
    whatever is held in other rooms. *)
Theorem pagination_lock_exclusion h e t0 (w : W) (room_id : string) :
  reachable C (init_world h e t0) w →
  let st := lock_of (pagination_lock w) room_id in
  (∀ i co, tasks w !! i = Some (co, HoldingLock) →
           lock_mode co = Write → lock_room co = room_id →
           can_grant Read st = false ∧ can_grant Write st = false
           ∧ ∀ j co', tasks w !! j = Some (co', HoldingLock) →
                      lock_room co' = room_id → j = i)
  ∧ (∀ i co, tasks w !! i = Some (co, HoldingLock) →
             lock_mode co = Read → lock_room co = room_id →
             can_grant Write st = false)
  ∧ (count (in_phase HoldingLock Write room_id) (tasks w) = 0%nat →
     count (in_phase AwaitingLock Write room_id) (tasks w) = 0%nat →
     can_grant Read st = true)
  ∧ (count (in_phase HoldingLock Read room_id) (tasks w) = 0%nat →
     count (in_phase HoldingLock Write room_id) (tasks w) = 0%nat →
     can_grant Write st = true).
Proof.
  intros Hreach st.
  destruct (reachable_lock_inv C _ _ _ _ Hreach room_id) as (Hr & Hw & Hq & Hx).
  fold st in Hr, Hw, Hq, Hx. unfold can_grant.
  assert (∀ i co m, tasks w !! i = Some (co, HoldingLock) → lock_mode co = m →
                    lock_room co = room_id →
                    in_phase HoldingLock m room_id (co, HoldingLock) = true) as Hin.
  { intros i co m _ <- <-. rewrite in_phase_eq.
    by rewrite !bool_decide_eq_true_2. }
  split; [|split; [|split]].
  - intros i co Hi Hmode Hroom.
    pose proof (count_lookup _ _ i _ Hi (Hin i co Write Hi Hmode Hroom)) as Hc.
    destruct (writer_held st); [|rewrite <-Hw in Hc; lia].
    split; [done|]. split; [done|].
    intros j co' Hj Hroom'. destruct (decide (j = i)) as [|Hne]; [done|exfalso].
    destruct (lock_mode co') eqn:Hmode'.
    + pose proof (count_lookup _ _ j _ Hj (Hin j co' Read Hj Hmode' Hroom')) as Hc'.
      rewrite <-Hr, Hx in Hc' by done. lia.
    + pose proof (count_lookup2 _ _ j i _ _ Hj Hi Hne
                    (Hin j co' Write Hj Hmode' Hroom')
                    (Hin i co Write Hi Hmode Hroom)) as Hc'.
      rewrite <-Hw in Hc'. lia.
  - intros i co Hi Hmode Hroom.
    pose proof (count_lookup _ _ i _ Hi (Hin i co Read Hi Hmode Hroom)) as Hc.
    rewrite <-Hr in Hc. destruct (writer_held st); [done|]. cbn.
    apply bool_decide_eq_false_2. lia.
  - intros Hc1 Hc2. rewrite <-Hw in Hc1. rewrite <-Hq in Hc2.
    destruct (writer_held st); [done|]. cbn. by apply bool_decide_eq_true_2.
  - intros Hc1 Hc2. rewrite <-Hr in Hc1. rewrite <-Hw in Hc2.
    destruct (writer_held st); [done|]. cbn. by apply bool_decide_eq_true_2.
Qed.

End LockExclusion.

(** Two [get_messages] calls hold the read lock of one room together; a
    purge of that room is not granted the write lock meanwhile. *)
Lemma pagination_lock_exclusion_witness :
  Demo.two_reading.(tasks) = [(Demo.reader, HoldingLock); (Demo.reader, HoldingLock)]
  ∧ can_grant Write (lock_of (pagination_lock Demo.two_reading) "!room") = false.
Proof.
  split; [reflexivity|].
  assert (reachable Demo.collaborators (Demo.world Demo.left_state) Demo.two_reading)
    as Hreach.
  { eapply reachable_step; [eapply reachable_step; [eapply reachable_step;
      [eapply reachable_step; [apply reachable_refl|]|]|]|].
    - eapply (step_get_messages _ "@bob:example.org" "!room"
                (Demo.backwards_from "t9-100") true None). reflexivity.
    - eapply (step_get_messages _ "@bob:example.org" "!room"
                (Demo.backwards_from "t9-100") true None Demo.one_waiting). reflexivity.
    - apply (step_grant _ 0%nat Demo.reader Demo.two_waiting); vm_compute; reflexivity.
    - apply (step_grant _ 1%nat Demo.reader (Demo.grant 0 Demo.reader Demo.two_waiting));
        vm_compute; reflexivity. }
  destruct (pagination_lock_exclusion Demo.collaborators _ _ _ _ "!room" Hreach)
    as (_ & Hread & _).
  apply (Hread 0%nat Demo.reader); reflexivity.
Defined.

(** * Further properties of the handler *)

(** ** The in-progress set between requests *)

Section InProgress.
Context {Ext : Type} (C : Collaborators Ext).
Local Abbreviation W := (World Ext).

Lemma start_purge_history_marks room_id token d (w : W) purge_id w' :
  start_purge_history C room_id token d w = (Ok purge_id, w') →
  room_id ∈ _purges_in_progress_by_room (handler w').
Proof.
  unfold start_purge_history. mrun.
  destruct (decide (room_id ∈ _)) as [|_]; mrun; [done|].
  unfold create_purge_status, run_in_background, _purge_history_start. mrun.
  destruct (random_string C 16 (ext w)) as [q e]. mrun. intros [= _ <-].
  cbn. set_solver.
Qed.

Lemma retention_room_marks room_id policy (w : W) r w' :
  retention_room C room_id policy w = (r, w') →
  launches (log w') ≠ launches (log w) →
  room_id ∈ _purges_in_progress_by_room (handler w').
Proof.
  unfold retention_room. mrun.
  destruct (decide (room_id ∈ _)) as [|_]; mrun; [by intros [= _ <-]|].
  destruct (time_msec C (ext w)) as [now e1]. mrun.
  destruct (match max_lifetime policy with Some m => Some m | None => _ end) as [lifetime|];
    mrun; [|by intros [= _ <-]].
  destruct (find_first_stream_ordering_after_ts C _ e1) as [[so|x] e2]; mrun;
    [|by intros [= _ <-]].
  destruct (get_room_event_after_stream_ordering C room_id so e2) as [[[ans|]|x] e3]; mrun;
    [|by intros [= _ <-]..].
  destruct ans as [[stream_ topo] ev].
  unfold create_purge_status, run_as_background_process, run_in_background,
    _purge_history_start. mrun.
  destruct (random_string C 16 e3) as [q e4]. mrun. intros [= _ <-] _.
  cbn. set_solver.
Qed.

Lemma busy_room_refused room_id token d policy (w : W) :
  room_id ∈ _purges_in_progress_by_room (handler w) →
  start_purge_history C room_id token d w
  = (Raise (SynapseError 400 ("History purge already in progress for " +:+ room_id)), w)
  ∧ retention_room C room_id policy w = (Ok tt, w).
Proof.
  intros Hin. unfold start_purge_history, retention_room. mrun.
  by rewrite !decide_True by done.
Qed.

(** Once [start_purge_history] has accepted a room, a second request for
    that room is refused with the conflict error and a retention sweep
    passes the room by; neither changes anything. *)
Theorem started_room_is_busy room_id token d token' d' policy (w : W) purge_id w' :
  start_purge_history C room_id token d w = (Ok purge_id, w') →
  start_purge_history C room_id token' d' w'
  = (Raise (SynapseError 400 ("History purge already in progress for " +:+ room_id)), w')
  ∧ retention_room C room_id policy w' = (Ok tt, w').
Proof.
  intros Hstart. apply busy_room_refused. by eapply start_purge_history_marks.
Qed.

(** Once a retention sweep has launched a purge for a room, an
    interactive request for that room is refused with the conflict error
    and a later sweep iteration passes the room by. *)
Theorem swept_room_is_busy room_id policy token d policy' (w : W) r w' :
  retention_room C room_id policy w = (r, w') →
  launches (log w') ≠ launches (log w) →
  start_purge_history C room_id token d w'
  = (Raise (SynapseError 400 ("History purge already in progress for " +:+ room_id)), w')
  ∧ retention_room C room_id policy' w' = (Ok tt, w').
Proof.
  intros Hrun Hlaunched. apply busy_room_refused. by eapply retention_room_marks.
Qed.

End InProgress.

(** After one accepted request for "!room", a second request and a sweep
    iteration for that room. *)
Lemma started_room_is_busy_witness :
  start_purge_history Demo.collaborators "!room" "t9-9" (Some true) Demo.purge_started
  = (Raise (SynapseError 400 "History purge already in progress for !room"),
     Demo.purge_started)
  ∧ retention_room Demo.collaborators "!room" Demo.one_second Demo.purge_started
    = (Ok tt, Demo.purge_started).
Proof.
  apply (started_room_is_busy Demo.collaborators "!room" "t5-7" None "t9-9" (Some true)
           Demo.one_second (Demo.world Demo.quiet_state) "purge0").
  vm_compute; reflexivity.
Defined.

(** After a sweep iteration launched a purge for "!room". *)
Lemma swept_room_is_busy_witness :
  start_purge_history Demo.collaborators "!room" "t9-9" None Demo.swept
  = (Raise (SynapseError 400 "History purge already in progress for !room"), Demo.swept)
  ∧ retention_room Demo.collaborators "!room" Demo.one_second Demo.swept
    = (Ok tt, Demo.swept).
Proof.
  apply (swept_room_is_busy Demo.collaborators "!room" Demo.one_second "t9-9" None
           Demo.one_second (Demo.world (Demo.sweep_state true)) (Ok tt)).
  - vm_compute; reflexivity.
  - vm_compute. discriminate.
Defined.

(** ** One run of a history purge *)

Section PurgeRun.
Context {Ext : Type} (C : Collaborators Ext).
Local Abbreviation W := (World Ext).

(** With its status record in the table, [_purge_history] never raises:
    a storage failure is absorbed into the status.  Storage is called
    once, with the arguments of the purge; the write lock is released
    before the status is set; the cleanup is scheduled last. *)
Theorem purge_history_absorbs_failure purge_id room_id token d (w : W) st :
  _purges_by_id (handler w) !! purge_id = Some st →
  ∃ w', _purge_history_locked C purge_id room_id token d w = (Ok tt, w')
        ∧ ext w' = (storage_purge_history C room_id token d (ext w)).2
        ∧ log w'
          = log w
            ++ [(reactor_seconds w, EvStorePurgeHistory room_id token d);
                (reactor_seconds w, EvRelease Write room_id);
                (reactor_seconds w,
                 EvStatusSet purge_id
                   (if is_ok (storage_purge_history C room_id token d (ext w)).1
                    then STATUS_COMPLETE else STATUS_FAILED));
                (reactor_seconds w,
                 EvCallLater (reactor_seconds w + 24 * 3600) purge_id)].
Proof.
  intros Hst.
  unfold _purge_history_locked, set_purge_status, callLater, release. mrun.
  destruct (storage_purge_history C room_id token d (ext w)) as [[[]|x] e]; mrun;
    rewrite Hst; mrun; rewrite ?Hst; mrun;
    (eexists; split; [reflexivity|]); cbn;
    by rewrite <-!(assoc_L (++)).
Qed.

(** Whatever storage does, and even when the status record is missing
    (the run then raises KeyError), [_purge_history] takes the room out of
    the in-progress set and schedules one cleanup 24 hours ahead; a new
    purge of the room is accepted right after. *)
Theorem purge_history_always_cleans_up purge_id room_id token d token' d' (w : W) :
  let r := (_purge_history_locked C purge_id room_id token d w).1 in
  let w' := (_purge_history_locked C purge_id room_id token d w).2 in
  _purges_in_progress_by_room (handler w')
  = _purges_in_progress_by_room (handler w) ∖ {[room_id]}
  ∧ delayed_calls w'
    = delayed_calls w
      ++ [{| dc_due := reactor_seconds w + 24 * 3600; dc_purge_id := purge_id;
             dc_called := false |}]
  ∧ (match _purges_by_id (handler w) !! purge_id with
     | Some _ => r = Ok tt
     | None => r = Raise (KeyError purge_id)
               ∧ _purges_by_id (handler w') = _purges_by_id (handler w)
     end)
  ∧ is_ok (start_purge_history C room_id token' d' w').1 = true.
Proof.
  cbn zeta.
  assert (∀ w' : W, room_id ∉ _purges_in_progress_by_room (handler w') →
                    is_ok (start_purge_history C room_id token' d' w').1 = true)
    as Hstart.
  { intros w' Hout. unfold start_purge_history. mrun.
    rewrite decide_False by done. mrun.
    unfold create_purge_status, run_in_background, _purge_history_start. mrun.
    by destruct (random_string C 16 (ext w')). }
  split; [|split; [|split]]; [| | |apply Hstart];
    unfold _purge_history_locked, set_purge_status, callLater, release; mrun;
    destruct (storage_purge_history C room_id token d (ext w)) as [[[]|x] e]; mrun;
    destruct (_purges_by_id (handler w) !! purge_id) as [st|] eqn:Hst; mrun;
    rewrite ?Hst; mrun; cbn; try done;
    intros [_ Hroom]%elem_of_difference; apply Hroom; by apply elem_of_singleton.
Qed.

(** [clear_purge] on an id that is not in the table raises KeyError and
    changes nothing; creating a status record under such an id and
    clearing it again gives the handler back as it was. *)
Theorem clear_purge_round_trip purge_id (w : W) :
  _purges_by_id (handler w) !! purge_id = None →
  clear_purge purge_id w = (Raise (KeyError purge_id), w)
  ∧ get_purge_status (handler (create_purge_status purge_id w).2) purge_id
    = Some {| status := STATUS_ACTIVE |}
  ∧ (clear_purge purge_id (create_purge_status purge_id w).2).1 = Ok tt
  ∧ handler (clear_purge purge_id (create_purge_status purge_id w).2).2 = handler w.
Proof.
  intros Hnone. unfold clear_purge, create_purge_status, get_purge_status. mrun.
  rewrite Hnone. mrun. cbn. rewrite lookup_insert_eq. mrun. cbn.
  repeat split; try done.
  destruct (handler w) as [name busy table lifetime]. unfold with_by_id. cbn in *.
  by rewrite delete_insert_id.
Qed.

(** A handler fresh from [__init__] knows no purge and accepts a purge of
    any room. *)
Theorem fresh_handler_accepts hostname default_lifetime (e : Ext) t0
    purge_id room_id token d :
  let w := init_world (PaginationHandler_init hostname default_lifetime) e t0 in
  get_purge_status (handler w) purge_id = None
  ∧ (start_purge_history C room_id token d w).1
    = Ok (random_string C 16 e).1.
Proof.
  cbn zeta. split; [apply lookup_empty|].
  unfold start_purge_history. mrun.
  destruct (decide (room_id ∈ _)) as [Hin|_];
    [cbn in Hin; by apply not_elem_of_empty in Hin|]. mrun.
  unfold create_purge_status, run_in_background, _purge_history_start. mrun.
  unfold init_world. cbn [ext]. by destruct (random_string C 16 e).
Qed.

End PurgeRun.

(** A purge whose storage deletion fails ends with status failed. *)
Lemma purge_history_absorbs_failure_witness :
  ∃ w', _purge_history_locked Demo.collaborators "purge0" "!room" "t5-7" false
          (with_ext Demo.failing_storage Demo.purge_granted) = (Ok tt, w')
        ∧ log w'
          = log Demo.purge_granted
            ++ [(0, EvStorePurgeHistory "!room" "t5-7" false);
                (0, EvRelease Write "!room");
                (0, EvStatusSet "purge0" STATUS_FAILED);
                (0, EvCallLater 86400 "purge0")].
Proof.
  destruct (purge_history_absorbs_failure Demo.collaborators "purge0" "!room" "t5-7" false
              (with_ext Demo.failing_storage Demo.purge_granted)
              {| status := STATUS_ACTIVE |})
    as (w' & Hrun & _ & Hlog).
  - vm_compute; reflexivity.
  - exists w'. split; [exact Hrun|exact Hlog].
Defined.

(** On a handler that knows no purge. *)
Lemma clear_purge_round_trip_witness :
  clear_purge "purge0" (Demo.world Demo.quiet_state)
  = (Raise (KeyError "purge0"), Demo.world Demo.quiet_state)
  ∧ handler (clear_purge "purge0"
               (create_purge_status "purge0" (Demo.world Demo.quiet_state)).2).2
    = handler (Demo.world Demo.quiet_state).
Proof.
  destruct (clear_purge_round_trip "purge0" (Demo.world Demo.quiet_state))
    as (Hmissing & _ & _ & Hback).
  - vm_compute; reflexivity.
  - split; [exact Hmissing|exact Hback].
Defined.

(** ** A retention sweep as a whole *)

Section Sweep.
Context {Ext : Type} (C : Collaborators Ext).
Local Abbreviation W := (World Ext).

Lemma retention_loop_app (l1 l2 : list (string * RetentionPolicy)) (w : W) :
  retention_loop C (l1 ++ l2) w
  = (retention_loop C l1 ;;; retention_loop C l2) w.
Proof.
  revert w. induction l1 as [|[room_id policy] l1 IH]; intros w; [done|].
  cbn. unfold bind in *.
  destruct (retention_room C room_id policy w) as [[[]|x] w1]; [apply IH|done].
Qed.

(** The loop has no handler around its body: when the iteration for one
    room raises (a store error, say), the sweep ends there with that
    exception and the rooms after it are not looked at. *)
Theorem sweep_stops_at_first_error before room_id policy after (w w1 w2 : W) x :
  retention_loop C before w = (Ok tt, w1) →
  retention_room C room_id policy w1 = (Raise x, w2) →
  retention_loop C (before ++ (room_id, policy) :: after) w = (Raise x, w2).
Proof.
  intros Hbefore Hroom. rewrite retention_loop_app. unfold bind.
  rewrite Hbefore. cbn. unfold bind. by rewrite Hroom.
Qed.

Lemma retention_room_launch_room room_id policy (w : W) :
  ∃ new, launches (log (retention_room C room_id policy w).2) = launches (log w) ++ new
         ∧ (λ l, l.1.1.2) <$> new `sublist_of` [room_id].
Proof.
  unfold retention_room. mrun.
  destruct (decide (room_id ∈ _)) as [|_]; mrun.
  { exists []. split; [by rewrite app_nil_r|apply sublist_nil_l]. }
  destruct (time_msec C (ext w)) as [now e1]. mrun.
  destruct (match max_lifetime policy with Some m => Some m | None => _ end) as [lifetime|];
    mrun; [|exists []; split; [by rewrite app_nil_r|apply sublist_nil_l]].
  destruct (find_first_stream_ordering_after_ts C _ e1) as [[so|x] e2]; mrun;
    [|exists []; split; [by rewrite app_nil_r|apply sublist_nil_l]].
  destruct (get_room_event_after_stream_ordering C room_id so e2) as [[[r|]|x] e3]; mrun;
    [|exists []; split; [by rewrite app_nil_r|apply sublist_nil_l]..].
  destruct r as [[stream_ topo] ev].
  unfold create_purge_status, run_as_background_process, run_in_background,
    _purge_history_start. mrun.
  destruct (random_string C 16 e3) as [purge_id e4]. mrun.
  eexists [_]. split.
  - rewrite !launches_app. cbn. by rewrite app_nil_r.
  - done.
Qed.

Lemma retention_loop_launch_rooms (rooms : list (string * RetentionPolicy)) (w : W) :
  ∃ new, launches (log (retention_loop C rooms w).2) = launches (log w) ++ new
         ∧ (λ l, l.1.1.2) <$> new `sublist_of` rooms.*1.
Proof.
  revert w. induction rooms as [|[room_id policy] rest IH]; intros w; cbn.
  { exists []. split; [by rewrite app_nil_r|done]. }
  unfold bind.
  destruct (retention_room_launch_room room_id policy w) as (new1 & Hlog1 & Hsub1).
  destruct (retention_room C room_id policy w) as [[[]|x] w1]; cbn in *.
  - destruct (IH w1) as (new2 & Hlog2 & Hsub2).
    exists (new1 ++ new2). rewrite Hlog2, Hlog1, <-(assoc_L (++)).
    split; [done|]. rewrite fmap_app.
    by apply (sublist_app _ [room_id] _ rest.*1).
  - exists new1. split; [done|].
    by apply (sublist_inserts_r rest.*1 _ [room_id]).
Qed.

(** A sweep launches purges only for rooms the store returned for its
    window, at most one per returned entry and in the store's order; when
    the store returns no room, or fails, nothing is launched. *)
Theorem sweep_launches_returned_rooms (min_ms max_ms : option Z) (w : W) :
  let answer :=
    (get_rooms_for_retention_period_in_range C min_ms max_ms
       (include_null (_retention_default_max_lifetime (handler w)) min_ms max_ms)
       (ext w)).1 in
  ∃ new, launches (log (purge_history_for_rooms_in_range C min_ms max_ms w).2)
         = launches (log w) ++ new
         ∧ (λ l, l.1.1.2) <$> new
           `sublist_of` match answer with Ok rooms => rooms.*1 | Raise _ => [] end.
Proof.
  cbn zeta. unfold purge_history_for_rooms_in_range. mrun.
  destruct (get_rooms_for_retention_period_in_range C _ _ _ _) as [[rooms|x] e]; mrun.
  - apply (retention_loop_launch_rooms rooms (with_ext e w)).
  - exists []. split; [by rewrite app_nil_r|done].
Qed.

(** The comment at lines 149-151: whenever the include-null flag handed
    to the store is true a default lifetime is configured, so every room
    the store returns has a lifetime to purge by. *)
Theorem sweep_lifetime_defined (min_ms max_ms : option Z) (policy : RetentionPolicy)
    (w : W) :
  include_null (_retention_default_max_lifetime (handler w)) min_ms max_ms = true →
  is_Some (effective_max_lifetime (handler w) policy).
Proof.
  unfold effective_max_lifetime, include_null.
  destruct (_retention_default_max_lifetime (handler w)); [|done].
  destruct (max_lifetime policy); eauto.
Qed.

(** Without a default lifetime, a room with no policy of its own makes
    the iteration raise TypeError right after reading the clock: no store
    query is made, no status record is created and nothing is launched. *)
Theorem sweep_without_lifetime_raises (policy : RetentionPolicy) room_id (w : W) :
  effective_max_lifetime (handler w) policy = None →
  room_id ∉ _purges_in_progress_by_room (handler w) →
  retention_room C room_id policy w
  = (Raise (TypeError "unsupported operand type(s) for -: 'int' and 'NoneType'"),
     with_ext (time_msec C (ext w)).2 w).
Proof.
  unfold effective_max_lifetime.
  intros Hnone Hfree. unfold retention_room. mrun.
  rewrite decide_False by done. mrun.
  destruct (time_msec C (ext w)) as [now e1]. mrun. by rewrite Hnone.
Qed.

End Sweep.

(** A sweep over three rooms on a server without default policy: the
    second room has no policy, the third is never looked at. *)
Lemma sweep_stops_at_first_error_witness :
  ∃ w', retention_loop Demo.collaborators
          [("!first", Demo.one_second); ("!second", Demo.no_policy);
           ("!third", Demo.one_second)]
          (Demo.no_default (Demo.sweep_state true))
        = (Raise (TypeError "unsupported operand type(s) for -: 'int' and 'NoneType'"), w').
Proof.
  eexists.
  apply (sweep_stops_at_first_error Demo.collaborators
           [("!first", Demo.one_second)] "!second" Demo.no_policy
           [("!third", Demo.one_second)]
           (Demo.no_default (Demo.sweep_state true))
           (retention_loop Demo.collaborators [("!first", Demo.one_second)]
              (Demo.no_default (Demo.sweep_state true))).2).
  - vm_compute; reflexivity.
  - vm_compute; reflexivity.
Defined.

(** With the default of three days and a window open above. *)
Lemma sweep_lifetime_defined_witness :
  is_Some (effective_max_lifetime (handler (Demo.world Demo.quiet_state)) Demo.no_policy).
Proof.
  apply (sweep_lifetime_defined (Some 0) None Demo.no_policy (Demo.world Demo.quiet_state)).
  reflexivity.
Defined.

(** A room without policy on a server without default policy. *)
Lemma sweep_without_lifetime_raises_witness :
  retention_room Demo.collaborators "!room" Demo.no_policy
    (Demo.no_default (Demo.sweep_state true))
  = (Raise (TypeError "unsupported operand type(s) for -: 'int' and 'NoneType'"),
     Demo.no_default (Demo.sweep_state true)).
Proof.
  apply (sweep_without_lifetime_raises Demo.collaborators Demo.no_policy "!room"
           (Demo.no_default (Demo.sweep_state true))).
  - reflexivity.
  - cbn. apply not_elem_of_empty.
Defined.

(** Two jobs whose windows meet at [mid] never both take the rooms
    without policy, and when the default lifetime lies in the joint window
    one of the two takes them. *)
Theorem include_null_split (default_lifetime lo hi : option Z) (mid : Z) :
  ¬ (include_null default_lifetime lo (Some mid) = true
     ∧ include_null default_lifetime (Some mid) hi = true)
  ∧ (include_null default_lifetime lo hi = true →
     include_null default_lifetime lo (Some mid) = true
     ∨ include_null default_lifetime (Some mid) hi = true).
Proof.
  unfold include_null. destruct default_lifetime as [d|]; [|split; [by intros []|done]].
  destruct lo as [lo|], hi as [hi|]; repeat case_bool_decide;
    split; try (intros []; done); try done; intros; try lia; auto.
Qed.

(** ** More on reading messages *)

Section Reading.
Context {Ext : Type} (C : Collaborators Ext).
Local Abbreviation W := (World Ext).

(** When the requester is refused by the authorisation check,
    [get_messages] raises that error having read nothing: no backfill, no
    storage read, and the read lock is released. *)
Theorem refused_requester_reads_nothing (a : GetMessagesArgs) (w : W) x e1 :
  check_in_room_or_world_readable C (gm_room_id a) (gm_user_id a) (ext w)
    = (Raise x, e1) →
  ∃ w', get_messages_locked C a w = (Raise x, w')
        ∧ ext w' = e1
        ∧ log w' = log w ++ [(reactor_seconds w, EvRelease Read (gm_room_id a))].
Proof.
  intros Hauth. unfold get_messages_locked, read_page, release. mrun.
  rewrite Hauth. mrun. eexists. split; [reflexivity|]. done.
Qed.

(** Going forwards, [get_messages] neither backfills nor asks for a
    topological position nor clamps: after the authorisation check the
    only call is the storage read, from the source config's own from
    key, whatever the requester's membership. *)
Theorem forward_read_is_plain (a : GetMessagesArgs) (w : W) mm e1 :
  direction (gm_source_config a) ≠ "b" →
  check_in_room_or_world_readable C (gm_room_id a) (gm_user_id a) (ext w)
    = (Ok mm, e1) →
  let sc := gm_source_config a in
  let w' := (read_page C a w).2 in
  log w' = log w ++ [(reactor_seconds w,
                      EvPaginate (gm_room_id a) (from_key sc) (to_key sc) (direction sc))]
  ∧ ext w' = (paginate_room_events C (gm_room_id a) (from_key sc) (to_key sc)
                (direction sc) (limit sc) (gm_event_filter a) e1).2.
Proof.
  intros Hdir Hauth. cbn zeta. unfold read_page. mrun. rewrite Hauth. mrun.
  destruct mm as [membership member_event_id].
  rewrite decide_False by done. mrun.
  destruct (paginate_room_events C _ _ _ _ _ _ e1) as [[[events next_key]|x] e2]; mrun;
    [destruct (from_token (gm_pagin_config a))|]; done.
Qed.




(** Without a filter that asks for lazily loaded members, the response
    of [get_messages] carries no state. *)
Theorem no_lazy_filter_no_state (a : GetMessagesArgs) (w : W) resp w' :
  (∀ f, gm_event_filter a = Some f → lazy_load_members f = false) →
  get_messages_locked C a w = (Ok resp, w') →
  state resp = None.
Proof.
  intros Hlazy. unfold get_messages_locked, build_response, lazy_member_state,
    from_token_string. mrun.
  intros H. repeat (case_match; simplify_eq; mrun); try done;
    match goal with
    | Hl : ∀ f0, Some ?f = Some f0 → _ |- _ => specialize (Hl f eq_refl); congruence
    end.
Qed.

(** [get_messages] and [purge_room] leave the purge bookkeeping alone:
    the status table, the in-progress set, the pending cleanups and the
    running coroutines are as before, whatever the outcome. *)
Theorem reads_and_room_purges_keep_bookkeeping (user_id room_id : string)
    (pagin_config : PaginationConfig) (as_client_event : bool)
    (event_filter : option Filter) (w : W) :
  let w1 := (get_messages C user_id room_id pagin_config as_client_event
               event_filter w).2 in
  let w2 := (purge_room C room_id w).2 in
  (handler w1 = handler w ∧ delayed_calls w1 = delayed_calls w ∧ tasks w1 = tasks w)
  ∧ (handler w2 = handler w ∧ delayed_calls w2 = delayed_calls w ∧ tasks w2 = tasks w).
Proof.
  cbn zeta. split.
  - destruct (get_messages C user_id room_id pagin_config as_client_event
                event_filter w) as [[r cfg'] w1] eqn:Hget.
    cbn [snd]. revert Hget. unfold get_messages.
    destruct (get_messages_prelude C pagin_config w)
      as [[[[room_token source_config]|x] pagin_config1] w0] eqn:Hpre;
      destruct (prelude_world C _ _ _ _ _ Hpre) as [e ->];
      [|by intros [= _ _ <-]].
    unfold bind. rewrite (acquire_eq Read room_id (with_ext e w)).
    match goal with
    | |- context [get_messages_locked C ?a ?w0] =>
        destruct (get_messages_locked C a w0) as [r' w'] eqn:Hrun;
        destruct (get_messages_locked_effect C a _ _ _ Hrun)
          as (Hh & _ & _ & Hd & Ht & _)
    end.
    intros [= _ _ <-]. cbn in *. repeat split; congruence.
  - destruct (purge_room C room_id w) as [r w2] eqn:Hpurge.
    cbn [snd]. revert Hpurge. unfold purge_room, bind.
    rewrite (acquire_eq Write room_id w). intros Hrun.
    destruct (purge_room_locked_effect C _ _ _ _ Hrun) as (Hh & _ & _ & Hd & Ht & _).
    cbn in *. repeat split; congruence.
Qed.

End Reading.

(** A refused requester. *)
Lemma refused_requester_reads_nothing_witness :
  ∃ w', get_messages_locked Demo.refusing (Demo.args 9 100) (Demo.world Demo.left_state)
        = (Raise (SynapseError 403 "Guest access not allowed"), w')
        ∧ log w' = [(0, EvRelease Read "!room")].
Proof.
  destruct (refused_requester_reads_nothing Demo.refusing (Demo.args 9 100)
              (Demo.world Demo.left_state) (SynapseError 403 "Guest access not allowed")
              Demo.left_state)
    as (w' & Hrun & _ & Hlog).
  - reflexivity.
  - exists w'. split; [exact Hrun|exact Hlog].
Defined.

(** A forwards read by a requester who left the room. *)
Lemma forward_read_is_plain_witness :
  log (read_page Demo.collaborators Demo.forward_args (Demo.world Demo.left_state)).2
  = [(0, EvPaginate "!room" "t9-100" None "f")].
Proof.
  apply (forward_read_is_plain Demo.collaborators Demo.forward_args
           (Demo.world Demo.left_state) (LEAVE, Some "$leave") Demo.left_state).
  - vm_compute. discriminate.
  - reflexivity.
Defined.

(** A read without filter. *)
Lemma no_lazy_filter_no_state_witness :
  ∃ resp w', get_messages_locked Demo.collaborators (Demo.args 9 100)
               (Demo.world Demo.left_state) = (Ok resp, w')
             ∧ state resp = None.
Proof.
  assert (∃ resp, get_messages_locked Demo.collaborators (Demo.args 9 100)
                    (Demo.world Demo.left_state)
                  = (Ok resp, (get_messages_locked Demo.collaborators (Demo.args 9 100)
                                 (Demo.world Demo.left_state)).2)) as [resp Hrun].
  { vm_compute. eexists. reflexivity. }
  exists resp, (get_messages_locked Demo.collaborators (Demo.args 9 100)
                  (Demo.world Demo.left_state)).2.
  split; [exact Hrun|].
  apply (no_lazy_filter_no_state Demo.collaborators (Demo.args 9 100)
           (Demo.world Demo.left_state) resp _ (λ f (H : None = Some f), ltac:(discriminate H))
           Hrun).
Defined.

(** ** Who deletes *)

Section Deletions.
Context {Ext : Type} (C : Collaborators Ext).
Local Abbreviation W := (World Ext).

Lemma deletion_accounted_quiet ts (e : Z * Event) :
  is_deletion e = false → deletion_accounted ts e.
Proof. destruct e as [t []]; done. Qed.

Lemma accounted_append (w w' : W) extra new :
  tasks w' = tasks w ++ extra →
  log w' = log w ++ new →
  (∀ purge_id room_id token d ph,
     (PurgeHistoryCo purge_id room_id token d, ph) ∈ extra →
     (purge_id, room_id, token, d) ∈ launches new) →
  Forall (λ e, is_deletion e = false) new →
  accounted w → accounted w'.
Proof.
  intros HK HL Hextra Hnew [Hlaunched Hdel]. split.
  - intros i p r t d ph Hi. rewrite HK in Hi. rewrite HL, launches_app.
    apply elem_of_app. apply lookup_app_Some in Hi as [Hi|[_ Hi]].
    + left. by eapply Hlaunched.
    + right. eapply Hextra. by eapply list_elem_of_lookup_2.
  - rewrite HL, HK. apply Forall_app. split.
    + eapply Forall_impl; [exact Hdel|]. intros [t ev] Hev.
      unfold deletion_accounted in *. cbn in *.
      destruct ev; try done.
      * destruct Hev as (i & p & Hi). exists i, p. by apply lookup_app_l_Some.
      * destruct Hev as (i & Hi). exists i. by apply lookup_app_l_Some.
    + eapply Forall_impl; [exact Hnew|]. intros e He.
      by apply deletion_accounted_quiet.
Qed.

Lemma accounted_move (w w' : W) i co ph ph' new :
  tasks w !! i = Some (co, ph) → ph ≠ Finished →
  tasks w' = <[i := (co, ph')]> (tasks w) →
  log w' = log w ++ new →
  Forall (deletion_accounted (<[i := (co, ph')]> (tasks w))) new →
  accounted w → accounted w'.
Proof.
  intros Hi Hph HK HL Hnew [Hlaunched Hdel].
  assert (∀ j co', tasks w !! j = Some (co', Finished) →
                   <[i := (co, ph')]> (tasks w) !! j = Some (co', Finished)) as Hkeep.
  { intros j co' Hj. rewrite list_lookup_insert_ne; [done|]. congruence. }
  split.
  - intros j p r t d ph0 Hj. rewrite HK in Hj. rewrite HL, launches_app.
    apply elem_of_app. left.
    destruct (decide (i = j)) as [->|Hne].
    + rewrite list_lookup_insert_eq in Hj by (by eapply lookup_lt_Some).
      injection Hj as -> ->. by eapply Hlaunched.
    + rewrite list_lookup_insert_ne in Hj by done. by eapply Hlaunched.
  - rewrite HL, HK. apply Forall_app. split; [|done].
    eapply Forall_impl; [exact Hdel|]. intros [t ev] Hev.
    unfold deletion_accounted in *. cbn in *.
    destruct ev; try done.
    + destruct Hev as (j & p & Hj). exists j, p. by apply Hkeep.
    + destruct Hev as (j & Hj). exists j. by apply Hkeep.
Qed.

Lemma purge_room_locked_log room_id (w : W) r w' :
  purge_room_locked C room_id w = (r, w') →
  ∃ new, log w' = log w ++ new
         ∧ Forall (λ e, e.2 = EvStorePurgeRoom room_id ∨ is_deletion e = false) new.
Proof.
  unfold purge_room_locked, release. mrun. intros H.
  repeat (case_match; simplify_eq; mrun); cbn;
    rewrite <-?(assoc_L (++)); (eexists; split; [reflexivity|]);
    repeat first [apply List.Forall_nil | apply List.Forall_cons]; cbn; auto.
Qed.

Lemma purge_history_locked_log purge_id room_id token d (w : W) r w' :
  _purge_history_locked C purge_id room_id token d w = (r, w') →
  ∃ new, log w' = log w ++ new
         ∧ Forall (λ e, e.2 = EvStorePurgeHistory room_id token d
                        ∨ is_deletion e = false) new.
Proof.
  unfold _purge_history_locked, set_purge_status, callLater, release. mrun. intros H.
  repeat (case_match; simplify_eq; mrun); cbn;
    rewrite <-?(assoc_L (++)); (eexists; split; [reflexivity|]);
    repeat first [apply List.Forall_nil | apply List.Forall_cons]; cbn; auto.
Qed.

Lemma step_accounted (w w' : W) : step C w w' → accounted w → accounted w'.
Proof.
  intros [room_id token d w0 r w0' Hrun
         |room_id policy w0 r w0' Hrun
         |room_id w0
         |user_id room_id cfg ace ef w0 rt sc cfg' w0' Hpre
         |i co w0 Hi Hgrant
         |i co w0 r w0' Hi Hrun
         |j dc w0 r w0' Hj Hcalled Hdue Hrun
         |dt w0 Hdt
         |e w0].
  - revert Hrun. unfold start_purge_history. mrun.
    destruct (decide (room_id ∈ _)) as [|_]; mrun; [by intros [= _ <-]|].
    unfold create_purge_status, run_in_background, _purge_history_start. mrun.
    destruct (random_string C 16 (ext w0)) as [q e]. mrun. intros [= _ <-].
    eapply (accounted_append w0 _ [_] [_; _]); wsimpl;
      [done|by rewrite <-(assoc_L (++))| |by repeat constructor].
    intros p r' t d' ph [= -> -> -> -> _]%list_elem_of_singleton. cbn. set_solver.
  - revert Hrun. unfold retention_room. mrun.
    destruct (decide (room_id ∈ _)) as [|_]; mrun; [by intros [= _ <-]|].
    assert (∀ e, accounted w0 → accounted (with_ext e w0)) as Hidle by done.
    destruct (time_msec C (ext w0)) as [now e1]. mrun.
    destruct (match max_lifetime policy with Some m => Some m | None => _ end)
      as [lifetime|]; mrun; [|intros [= _ <-]; apply Hidle].
    destruct (find_first_stream_ordering_after_ts C _ e1) as [[so|x] e2]; mrun;
      [|intros [= _ <-]; apply Hidle].
    destruct (get_room_event_after_stream_ordering C room_id so e2)
      as [[[ans|]|x] e3]; mrun; [|intros [= _ <-]; apply Hidle..].
    destruct ans as [[stream_ topo] ev].
    unfold create_purge_status, run_as_background_process, run_in_background,
      _purge_history_start. mrun.
    destruct (random_string C 16 e3) as [q e4]. mrun. intros [= _ <-].
    eapply (accounted_append w0 _ [_] [_; _]); wsimpl;
      [done|by rewrite <-(assoc_L (++))| |by repeat constructor].
    intros p r' t d' ph [= -> -> -> -> _]%list_elem_of_singleton. cbn. set_solver.
  - eapply (accounted_append w0 _ [_] []); wsimpl; [done|by rewrite app_nil_r| |done].
    by intros p r' t d' ph [=]%list_elem_of_singleton.
  - destruct (prelude_world C _ _ _ _ _ Hpre) as [e ->].
    eapply (accounted_append w0 _ [_] []); wsimpl; [done|by rewrite app_nil_r| |done].
    by intros p r' t d' ph [=]%list_elem_of_singleton.
  - eapply (accounted_move w0 _ i co AwaitingLock HoldingLock [_]); wsimpl; try done.
    by repeat constructor.
  - assert (tasks w0' = tasks w0
            ∧ ∃ new, log w0' = log w0 ++ new
                     ∧ Forall (deletion_accounted (<[i := (co, Finished)]> (tasks w0))) new)
      as (HK & new & HL & Hnew).
    { assert (<[i := (co, Finished)]> (tasks w0) !! i = Some (co, Finished)) as Hdone.
      { apply list_lookup_insert_eq. by eapply lookup_lt_Some. }
      destruct co as [q room_id token d|room_id|a]; cbn in Hrun.
      - destruct (purge_history_locked_lock C _ _ _ _ _ _ _ Hrun) as [_ HK].
        destruct (purge_history_locked_log _ _ _ _ _ _ _ Hrun) as (new & HL & Hnew).
        split; [done|]. exists new. split; [done|].
        eapply Forall_impl; [exact Hnew|].
        intros [t ev] [Hev|Hev]; cbn in Hev;
          [subst ev; by exists i, q|by apply deletion_accounted_quiet].
      - destruct (purge_room_locked_effect C _ _ _ _ Hrun) as (_ & _ & _ & _ & HK & _).
        destruct (purge_room_locked_log _ _ _ _ Hrun) as (new & HL & Hnew).
        split; [done|]. exists new. split; [done|].
        eapply Forall_impl; [exact Hnew|].
        intros [t ev] [Hev|Hev]; cbn in Hev;
          [subst ev; by exists i|by apply deletion_accounted_quiet].
      - unfold bind in Hrun.
        destruct (get_messages_locked C a w0) as [x w1] eqn:Hget.
        assert (w0' = w1) as ->.
        { destruct x; [unfold ret in Hrun|]; by injection Hrun. }
        destruct (get_messages_locked_effect C _ _ _ _ Hget)
          as (_ & _ & _ & _ & HK & new & HL & Hnew).
        split; [done|]. exists new. split; [done|].
        eapply Forall_impl; [exact Hnew|].
        intros [t ev] [Hev|Hev]; cbn in Hev; [|by subst].
        unfold read_event in Hev. by destruct ev. }
    eapply (accounted_move w0 _ i co HoldingLock Finished new); wsimpl; try done.
    by rewrite HK.
  - revert Hrun. unfold clear_purge. mrun. intros Hrun.
    repeat (case_match; simplify_eq; mrun).
    + eapply (accounted_append w0 _ [] [_]); wsimpl;
        [by rewrite app_nil_r|done| |by repeat constructor].
      intros ? ? ? ? ? Hin. by apply elem_of_nil in Hin.
    + done.
  - done.
  - done.
Qed.

(** In every reachable state of the handler, each whole-room deletion
    asked of storage was asked by a [purge_room] call for that room, and
    each history deletion carries the room, token and delete-local flag
    of a purge that was launched: sweeps and history purges never delete
    a room, and nothing deletes history that was not requested. *)
Theorem deletions_are_requested h e t0 (w : W) :
  reachable C (init_world h e t0) w →
  (∀ t room_id, (t, EvStorePurgeRoom room_id) ∈ log w →
                ∃ i, tasks w !! i = Some (PurgeRoomCo room_id, Finished))
  ∧ (∀ t room_id token d,
       (t, EvStorePurgeHistory room_id token d) ∈ log w →
       ∃ purge_id, (purge_id, room_id, token, d) ∈ launches (log w)).
Proof.
  intros Hreach.
  assert (accounted w) as [Hlaunched Hdel].
  { induction Hreach as [|w w' _ IH Hstep].
    - split; [intros i p r t d ph Hi; cbn in Hi; by rewrite lookup_nil in Hi
             |by constructor].
    - by eapply step_accounted. }
  rewrite Forall_forall in Hdel. split.
  - intros t room_id Hin. exact (Hdel _ Hin).
  - intros t room_id token d Hin. destruct (Hdel _ Hin) as (i & p & Hi).
    exists p. by eapply Hlaunched.
Qed.

End Deletions.

(** One purge followed from request to cleanup. *)
Lemma purge_cleared_reachable :
  reachable Demo.collaborators (Demo.world Demo.quiet_state) Demo.purge_cleared.
Proof.
  eapply reachable_step; [eapply reachable_step; [eapply reachable_step;
    [eapply reachable_step; [eapply reachable_step; [apply reachable_refl|]|]|]|]|].
  - eapply (step_start_purge_history _ "!room" "t5-7" None). reflexivity.
  - apply (step_grant _ 0%nat Demo.purge_co Demo.purge_started);
      vm_compute; reflexivity.
  - eapply (step_run _ 0%nat Demo.purge_co Demo.purge_granted).
    + vm_compute; reflexivity.
    + apply surjective_pairing.
  - apply (step_advance _ 86400 Demo.purge_finished). lia.
  - eapply (step_delayed_call _ 0%nat
              {| dc_due := 86400; dc_purge_id := "purge0"; dc_called := false |}
              Demo.a_day_later).
    + vm_compute; reflexivity.
    + reflexivity.
    + vm_compute. discriminate.
    + apply surjective_pairing.
Qed.

(** The history deletion of that purge was launched by the request. *)
Lemma deletions_are_requested_witness :
  ∃ purge_id, (purge_id, "!room", "t5-7", false) ∈ launches (log Demo.purge_cleared).
Proof.
  destruct (deletions_are_requested Demo.collaborators _ _ _ _ purge_cleared_reachable)
    as [_ Hhistory].
  apply (Hhistory 0 "!room" "t5-7" false).
  apply (list_elem_of_lookup_2 _ 3%nat). vm_compute; reflexivity.
Defined.

(** ** What the handler reports *)

Lemma pretty_N_char_dashless (x : N) : pretty_N_char x ≠ "-"%char.
Proof. unfold pretty_N_char. by repeat case_match. Qed.

Lemma pretty_N_go_shape (x : N) (s : string) :
  (dashless s = true → dashless (pretty_N_go x s) = true)
  ∧ (s ≠ EmptyString → pretty_N_go x s ≠ EmptyString).
Proof.
  revert s. induction (N.lt_wf_0 x) as [x _ IH]. intros s.
  destruct (decide (x = 0%N)) as [->|Hpos]; [by rewrite pretty_N_go_0|].
  rewrite pretty_N_go_step by lia.
  destruct (IH (x `div` 10)%N) with (s := String (pretty_N_char (x `mod` 10)) s)
    as [Hd He]; [apply N.div_lt; lia|].
  split.
  - intros Hs. apply Hd. cbn. rewrite Hs.
    by rewrite bool_decide_eq_false_2 by apply pretty_N_char_dashless.
  - intros _. by apply He.
Qed.

Lemma pretty_N_shape (x : N) :
  dashless (pretty x) = true ∧ pretty x ≠ EmptyString.
Proof.
  unfold pretty, pretty_N. case_decide as Hx; [done|].
  assert (0 < x)%N as Hpos by lia.
  rewrite pretty_N_go_step by done.
  destruct (pretty_N_go_shape (x `div` 10)%N
              (String (pretty_N_char (x `mod` 10)) EmptyString)) as [Hd He].
  split; [|by apply He]. apply Hd. cbn.
  by rewrite bool_decide_eq_false_2 by apply pretty_N_char_dashless.
Qed.

Lemma pretty_Z_shape (z : Z) :
  ∃ body, dashless body = true ∧ body ≠ EmptyString
          ∧ (pretty z = body ∨ pretty z = String "-"%char body).
Proof.
  destruct z as [|p|p].
  - exists "0". by repeat split; [..|left].
  - exists (pretty (Npos p)). destruct (pretty_N_shape (Npos p)). by repeat split; [..|left].
  - exists (pretty (Npos p)). destruct (pretty_N_shape (Npos p)). by repeat split; [..|right].
Qed.

Lemma dashless_split (a a' x x' : string) :
  dashless a = true → dashless a' = true →
  a +:+ String "-"%char x = a' +:+ String "-"%char x' →
  a = a' ∧ x = x'.
Proof.
  revert a'. induction a as [|c a IH]; intros [|c' a'] Ha Ha' Heq; cbn in *.
  - by injection Heq as ->.
  - injection Heq as <- _. by rewrite bool_decide_eq_true_2 in Ha'.
  - injection Heq as -> _. by rewrite bool_decide_eq_true_2 in Ha.
  - injection Heq as -> Heq.
    apply andb_prop in Ha as [_ Ha]. apply andb_prop in Ha' as [_ Ha'].
    destruct (IH a' Ha Ha' Heq) as [-> ->]. done.
Qed.

Lemma dashless_head (c : ascii) (s : string) :
  dashless (String c s) = true → c ≠ "-"%char.
Proof. cbn. intros [Hc _]%andb_prop. by case_bool_decide. Qed.

(** The purge token of line 172 names one position: two (stream,
    topological) pairs give the same token only when they are the same
    pair, negative numbers included. *)
Theorem purge_token_inj (r r' : Z * Z * string) :
  token_stream_first r = token_stream_first r' ↔ r.1 = r'.1.
Proof.
  destruct r as [[so topo] ev], r' as [[so' topo'] ev']. unfold token_stream_first.
  cbn [fst snd]. split; [|by intros [= -> ->]].
  intros [= Heq].
  assert (pretty topo = pretty topo' ∧ pretty so = pretty so') as [Ht Hs].
  { destruct (pretty_Z_shape topo) as (b & Hb & Hne & [Hp|Hp]),
             (pretty_Z_shape topo') as (b' & Hb' & Hne' & [Hp'|Hp']);
      rewrite Hp, Hp' in Heq |- *.
    - by destruct (dashless_split _ _ _ _ Hb Hb' Heq) as [-> ->].
    - destruct b as [|c b]; [done|]. injection Heq as -> _.
      by apply dashless_head in Hb.
    - destruct b' as [|c b']; [done|]. injection Heq as <- _.
      by apply dashless_head in Hb'.
    - injection Heq as Heq.
      by destruct (dashless_split _ _ _ _ Hb Hb' Heq) as [-> ->]. }
  apply (inj pretty) in Ht, Hs. by subst.
Qed.

(** The dict [asdict] reports tells the three states apart. *)
Theorem asdict_inj (p q : PurgeStatus) : asdict p = asdict q ↔ p = q.
Proof.
  split; [|by intros ->].
  destruct p as [[]], q as [[]]; by intros [=].
Qed.
